(** * Artifact diff panel: version resolution and hunk building

    Shallow embedding of the effect of
    [apps/web/src/components/artifact-diff-panel/index.tsx]
    ([ArtifactDiffPanel], the [useEffect] at lines 31-163): the lookup of the
    two versions to compare, the fold of the line-diff segments into one
    numbered hunk, and the state updates around them. *)

From Stdlib Require Import Strings.String Strings.Ascii Lists.List Bool.Bool
  Arith.Arith ZArith.ZArith Sorting.Sorted Numbers.DecimalString micromega.Lia.
Import ListNotations.

Local Open Scope string_scope.
Local Open Scope list_scope.

(** ** JavaScript strings *)

(** The line terminator ['\n']. *)
Definition LF : ascii := "010"%char.

Definition NL : string := String LF EmptyString.

Definition isLF (c : ascii) : bool := Ascii.eqb c LF.

(** [value.split('\n')]: the pieces between the terminators; a string with
    [k] terminators has [k + 1] pieces, and the empty string has the single
    piece [""]. *)
Fixpoint splitNewline (value : string) : list string :=
  match value with
  | EmptyString => [EmptyString]
  | String c rest =>
      if isLF c then EmptyString :: splitNewline rest
      else match splitNewline rest with
           | piece :: pieces => String c piece :: pieces
           | [] => [String c EmptyString]
           end
  end.

(** [value.endsWith('\n')]. *)
Fixpoint endsWithNewline (value : string) : bool :=
  match value with
  | EmptyString => false
  | String c EmptyString => isLF c
  | String _ rest => endsWithNewline rest
  end.

(** A JavaScript number printed in a string concatenation (line counts are
    non-negative integers). *)
Definition showNumber (n : nat) : string :=
  NilEmpty.string_of_uint (Nat.to_uint n).

(** ** The line-diff segments and the rows of a hunk *)

(** Modelled from the spec: a segment of section 4.2, step 1, the [Change]
    of the [diff] package as far as the panel reads it: the text the segment
    covers and its two flags ([undefined] reads as [false]). *)
Record Change : Type := mkChange {
  value : string;
  added : bool;
  removed : bool
}.

Inductive ChangeType : Type := insert | delete | normal.

Definition ChangeType_eqb (a b : ChangeType) : bool :=
  match a, b with
  | insert, insert | delete, delete | normal, normal => true
  | _, _ => false
  end.

(** One object pushed on [hunkChanges]; [undefined] line numbers are [None]. *)
Module HunkChange.
Record t : Type := mk {
  type : ChangeType;
  content : string;
  oldLineNumber : option nat;
  newLineNumber : option nat
}.
End HunkChange.

Module Hunk.
Record t : Type := mk {
  oldStart : nat;
  oldLines : nat;
  newStart : nat;
  newLines : nat;
  content : string;
  changes : list HunkChange.t
}.
End Hunk.

Module Stats.
Record t : Type := mk {
  additions : nat;
  deletions : nat
}.
End Stats.

(** What the hunk builder hands on: the hunks of the rendered file and the
    two counters of [setStats]. *)
Module DiffResult.
Record t : Type := mk {
  hunks : list Hunk.t;
  additions : nat;
  deletions : nat
}.
End DiffResult.

(** ** The hunk builder (lines 94-146) *)

(** The variables declared at lines 95-100, threaded through the two nested
    [forEach] loops. *)
Record Locals : Type := mkLocals {
  hunkChanges : list HunkChange.t;
  oldLineNumber : nat;
  newLineNumber : nat;
  additions : nat;
  deletions : nat
}.

Definition initially : Locals :=
  {| hunkChanges := []; oldLineNumber := 1; newLineNumber := 1;
     additions := 0; deletions := 0 |}.

(** Line 103: the pieces of the segment, the empty ones dropped unless the
    segment ends with a terminator. *)
Definition splitLines (change : Change) : list string :=
  filter (fun line => negb (line =? "") || endsWithNewline (value change))
         (splitNewline (value change)).

(** Lines 106-114. *)
Definition pushInsert (st : Locals) (line : string) : Locals :=
  {| hunkChanges := hunkChanges st ++
       [HunkChange.mk insert line None (Some (newLineNumber st))];
     oldLineNumber := oldLineNumber st;
     newLineNumber := S (newLineNumber st);
     additions := S (additions st);
     deletions := deletions st |}.

(** Lines 116-124. *)
Definition pushDelete (st : Locals) (line : string) : Locals :=
  {| hunkChanges := hunkChanges st ++
       [HunkChange.mk delete line (Some (oldLineNumber st)) None];
     oldLineNumber := S (oldLineNumber st);
     newLineNumber := newLineNumber st;
     additions := additions st;
     deletions := S (deletions st) |}.

(** Lines 126-133. *)
Definition pushNormal (st : Locals) (line : string) : Locals :=
  {| hunkChanges := hunkChanges st ++
       [HunkChange.mk normal line (Some (oldLineNumber st))
                      (Some (newLineNumber st))];
     oldLineNumber := S (oldLineNumber st);
     newLineNumber := S (newLineNumber st);
     additions := additions st;
     deletions := deletions st |}.

(** The callback of [changes.forEach] (lines 102-135). *)
Definition visitChange (st : Locals) (change : Change) : Locals :=
  let lines := splitLines change in
  if added change then fold_left pushInsert lines st
  else if removed change then fold_left pushDelete lines st
  else fold_left pushNormal lines st.

Definition walk (changes : list Change) : Locals :=
  fold_left visitChange changes initially.

(** Line 143. *)
Definition hunkHeader (st : Locals) : string :=
  "@@ -1," ++ showNumber (oldLineNumber st - 1) ++ " +1,"
           ++ showNumber (newLineNumber st - 1) ++ " @@".

(** Lines 137-146: one hunk when a row was pushed, none otherwise. *)
Definition assemble (st : Locals) : list Hunk.t :=
  if (0 <? List.length (hunkChanges st))%nat then
    [Hunk.mk 1 (oldLineNumber st - 1) 1 (newLineNumber st - 1)
             (hunkHeader st) (hunkChanges st)]
  else [].

Definition buildHunks (changes : list Change) : DiffResult.t :=
  let st := walk changes in
  DiffResult.mk (assemble st) (additions st) (deletions st).

(** ** The line diff of the [diff] package *)

(** The panel imports [diffLines] from the npm package [diff]; its code is
    not part of the repository.  The hunk builder above is independent of it;
    the statements about whole texts need it, so it is modelled here. *)
Module JsDiff.

(** Modelled from the spec: the line tokens of [diffLines], the external
    line diff of section 4.2, step 1.  They are the lines with their
    terminator attached; a text that ends with a terminator has no empty
    last token, and the empty text has no token. *)
Fixpoint tokenize (text : string) : list string :=
  match text with
  | EmptyString => []
  | String c rest =>
      if isLF c then String c EmptyString :: tokenize rest
      else match tokenize rest with
           | token :: tokens => String c token :: tokens
           | [] => [String c EmptyString]
           end
  end.

Inductive Tag : Type := Common | Removed | Added.

Definition Tag_eqb (a b : Tag) : bool :=
  match a, b with
  | Common, Common | Removed, Removed | Added, Added => true
  | _, _ => false
  end.

Definition commonCount (script : list (Tag * string)) : nat :=
  List.length (filter (fun e => Tag_eqb (fst e) Common) script).

(** Modelled from the spec: a longest-common-subsequence edit script over
    the line tokens.  Equal tokens are kept; otherwise the script that
    keeps more tokens wins, a removal going first on a tie. *)
Fixpoint editScript (old : list string) : list string -> list (Tag * string) :=
  match old with
  | [] => fun new => map (pair Added) new
  | x :: old' =>
      fix against (new : list string) : list (Tag * string) :=
        match new with
        | [] => map (pair Removed) (x :: old')
        | y :: new' =>
            if (x =? y)%string then (Common, x) :: editScript old' new'
            else
              let removing := (Removed, x) :: editScript old' (y :: new') in
              let adding := (Added, y) :: against new' in
              if (commonCount adding <=? commonCount removing)%nat
              then removing else adding
        end
  end.

Definition tagOf (change : Change) : Tag :=
  if added change then Added else if removed change then Removed else Common.

Definition segment (tag : Tag) (text : string) : Change :=
  {| value := text;
     added := Tag_eqb tag Added;
     removed := Tag_eqb tag Removed |}.

(** Modelled from the spec: consecutive tokens of one classification form
    one segment, which carries their concatenation. *)
Fixpoint segments (script : list (Tag * string)) : list Change :=
  match script with
  | [] => []
  | (tag, token) :: script' =>
      match segments script' with
      | change :: changes =>
          if Tag_eqb tag (tagOf change)
          then segment tag (token ++ value change) :: changes
          else segment tag token :: change :: changes
      | [] => [segment tag token]
      end
  end.

(** Modelled from the spec: [diffLines(oldText, newText)], the segments of
    the edit script of the two token lists, in order.  Two empty texts give
    no segment; a segment with an empty text would carry no line either
    (line 103 drops its only, empty piece). *)
Definition diffLines (oldText newText : string) : list Change :=
  segments (editScript (tokenize oldText) (tokenize newText)).

End JsDiff.

(** [buildDiff] of the specification: lines 91-146 with the modelled line
    diff. *)
Definition buildDiff (oldText newText : string) : DiffResult.t :=
  buildHunks (JsDiff.diffLines oldText newText).

(** ** The version resolver (lines 58-87) *)

Inductive ContentType : Type := code | text.

Definition ContentType_eqb (a b : ContentType) : bool :=
  match a, b with
  | code, code | text, text => true
  | _, _ => false
  end.

(** Modelled from the spec: a VersionedContent of section 3, one entry of
    [artifact.contents].  The declarations ([ArtifactCodeV3] and
    [ArtifactMarkdownV3] of the shared types) are outside the component;
    these are the fields it reads. *)
Module ArtifactContent.
Inductive t : Type :=
| ArtifactCodeV3 (index : Z) (title : string) (code : string)
| ArtifactMarkdownV3 (index : Z) (title : string) (fullMarkdown : string).

Definition index (c : t) : Z :=
  match c with
  | ArtifactCodeV3 i _ _ | ArtifactMarkdownV3 i _ _ => i
  end.

Definition title (c : t) : string :=
  match c with
  | ArtifactCodeV3 _ s _ | ArtifactMarkdownV3 _ s _ => s
  end.

Definition type (c : t) : ContentType :=
  match c with
  | ArtifactCodeV3 _ _ _ => code
  | ArtifactMarkdownV3 _ _ _ => text
  end.

(** [c.code] of a code entry, [c.fullMarkdown] of a text entry. *)
Definition body (c : t) : string :=
  match c with
  | ArtifactCodeV3 _ _ s | ArtifactMarkdownV3 _ _ s => s
  end.
End ArtifactContent.

Inductive ChangeKind : Type := create | update.

(** Modelled from the spec: the ChangeDescriptor of section 3
    ([ArtifactDiffInfo] of the shared types).  A missing [previousIndex] is
    [None] and is strictly equal to no index. *)
Record ArtifactDiffInfo : Type := mkArtifactDiffInfo {
  changeType : ChangeKind;
  artifactIndex : Z;
  previousIndex : option Z
}.

Definition indexIs (wanted : option Z) (c : ArtifactContent.t) : bool :=
  match wanted with
  | Some i => (ArtifactContent.index c =? i)%Z
  | None => false
  end.

Record Resolved : Type := mkResolved {
  oldText : string;
  newText : string;
  fileName : string
}.

Definition resolve (contents : list ArtifactContent.t) (diffInfoData : ArtifactDiffInfo)
  : option Resolved :=
  let currentContent :=
    find (indexIs (Some (artifactIndex diffInfoData))) contents in
  let previousContent :=
    match changeType diffInfoData with
    | update => find (indexIs (previousIndex diffInfoData)) contents
    | create => None
    end in
  match currentContent with
  | None => None
  | Some current =>
      let fileName :=
        if (ArtifactContent.title current =? "")%string then "Untitled"
        else ArtifactContent.title current in
      let texts :=
        match current with
        | ArtifactContent.ArtifactCodeV3 _ _ currentCode =>
            (match previousContent with
             | Some (ArtifactContent.ArtifactCodeV3 _ _ previousCode) => previousCode
             | _ => ""
             end, currentCode)
        | ArtifactContent.ArtifactMarkdownV3 _ _ currentMarkdown =>
            (match previousContent with
             | Some (ArtifactContent.ArtifactMarkdownV3 _ _ previousMarkdown) =>
                 previousMarkdown
             | _ => ""
             end, currentMarkdown)
        end in
      let oldText :=
        match changeType diffInfoData with
        | create => ""
        | update => fst texts
        end in
      Some {| oldText := oldText; newText := snd texts; fileName := fileName |}
  end.

(** ** The effect (lines 31-163) *)

Module Message.
(** A chat message: its [id] and [additional_kwargs?.artifactDiffInfo]. *)
Record t : Type := mk {
  id : option string;
  artifactDiffInfo : option ArtifactDiffInfo
}.
End Message.

Record Artifact : Type := mkArtifact {
  contents : list ArtifactContent.t
}.

(** The file object of lines 148-155. *)
Module DiffFile.
Record t : Type := mk {
  oldPath : string;
  newPath : string;
  oldRevision : string;
  newRevision : string;
  type : string;
  hunks : list Hunk.t
}.
End DiffFile.

(** The state the effect writes: the [open] flag of the parent, the three
    [useState] cells, and what [console.error] has printed. *)
Record PanelState : Type := mkPanelState {
  open : bool;
  diffInfo : option ArtifactDiffInfo;
  diffFiles : list DiffFile.t;
  stats : Stats.t;
  console : list (string * string)
}.

(** What the effect reads: the query parameter and the graph data. *)
Record Inputs : Type := mkInputs {
  diffId : option string;
  messages : list Message.t;
  artifact : option Artifact
}.

(** A call that returns or throws. *)
Inductive Completion (A : Type) : Type :=
| Return (result : A)
| Throw (error : string).

Arguments Return {A} result.
Arguments Throw {A} error.

Definition setOpen (b : bool) (st : PanelState) : PanelState :=
  {| open := b; diffInfo := diffInfo st; diffFiles := diffFiles st;
     stats := stats st; console := console st |}.

Definition setDiffInfo (d : option ArtifactDiffInfo) (st : PanelState) : PanelState :=
  {| open := open st; diffInfo := d; diffFiles := diffFiles st;
     stats := stats st; console := console st |}.

Definition setDiffFiles (files : list DiffFile.t) (st : PanelState) : PanelState :=
  {| open := open st; diffInfo := diffInfo st; diffFiles := files;
     stats := stats st; console := console st |}.

Definition setStats (s : Stats.t) (st : PanelState) : PanelState :=
  {| open := open st; diffInfo := diffInfo st; diffFiles := diffFiles st;
     stats := s; console := console st |}.

Definition consoleError (label error : string) (st : PanelState) : PanelState :=
  {| open := open st; diffInfo := diffInfo st; diffFiles := diffFiles st;
     stats := stats st; console := console st ++ [(label, error)] |}.

(** [!diffId]: [null] and the empty string are falsy. *)
Definition noDiffId (inp : Inputs) : bool :=
  match diffId inp with
  | Some s => (s =? "")%string
  | None => true
  end.

Definition hasId (wanted : string) (message : Message.t) : bool :=
  match Message.id message with
  | Some s => (s =? wanted)%string
  | None => false
  end.

(** Lines 38-53: the descriptor of the selected message, with the artifact
    it is about. *)
Definition selected (inp : Inputs) : option (ArtifactDiffInfo * Artifact) :=
  match diffId inp, artifact inp with
  | Some wanted, Some art =>
      if (wanted =? "")%string || (List.length (messages inp) =? 0)%nat then None
      else
        match find (hasId wanted) (messages inp) with
        | Some diffMessage =>
            match Message.artifactDiffInfo diffMessage with
            | Some diffInfoData => Some (diffInfoData, art)
            | None => None
            end
        | None => None
        end
  | _, _ => None
  end.

Section Effect.

(** The line diff, which may throw. *)
Variable diffLines : string -> string -> Completion (list Change).

(** Lines 90-162: the [try] block and its [catch]. *)
Definition tryDiff (r : Resolved) (st : PanelState) : PanelState :=
  match diffLines (oldText r) (newText r) with
  | Return changes =>
      let result := buildHunks changes in
      let file :=
        DiffFile.mk (fileName r) (fileName r) "previous" "current" "modify"
                    (DiffResult.hunks result) in
      setOpen true
        (setStats (Stats.mk (DiffResult.additions result)
                            (DiffResult.deletions result))
           (setDiffFiles [file] st))
  | Throw error => consoleError "Error generating diff:" error st
  end.

(** Lines 55-162. *)
Definition showDiff (diffInfoData : ArtifactDiffInfo) (art : Artifact)
           (st : PanelState) : PanelState :=
  let st := setDiffInfo (Some diffInfoData) st in
  match resolve (contents art) diffInfoData with
  | None => st
  | Some r => tryDiff r st
  end.

Definition effect (inp : Inputs) (st : PanelState) : PanelState :=
  if noDiffId inp && open st then
    setDiffFiles [] (setDiffInfo None (setOpen false st))
  else
    match selected inp with
    | Some (diffInfoData, art) => showDiff diffInfoData art st
    | None => st
    end.

End Effect.

(** The effect with the modelled line diff, which does not throw. *)
Definition panelEffect : Inputs -> PanelState -> PanelState :=
  effect (fun oldText newText => Return (JsDiff.diffLines oldText newText)).

(** ** Vocabulary of the statements *)

(** The role a segment gives to its lines. *)
Definition roleOf (change : Change) : ChangeType :=
  if added change then insert else if removed change then delete else normal.

Definition rowOf (c : HunkChange.t) : ChangeType * string :=
  (HunkChange.type c, HunkChange.content c).

(** The rows the walk emits, in emission order, without their numbers. *)
Definition emission (changes : list Change) : list (ChangeType * string) :=
  flat_map (fun change => map (pair (roleOf change)) (splitLines change)) changes.

Definition oldNumbers (rows : list HunkChange.t) : list nat :=
  flat_map (fun c => match HunkChange.oldLineNumber c with
                     | Some n => [n]
                     | None => []
                     end) rows.

Definition newNumbers (rows : list HunkChange.t) : list nat :=
  flat_map (fun c => match HunkChange.newLineNumber c with
                     | Some n => [n]
                     | None => []
                     end) rows.

Definition countType (k : ChangeType) (rows : list HunkChange.t) : nat :=
  List.length (filter (fun c => ChangeType_eqb (HunkChange.type c) k) rows).

(** The rows of all the hunks of a result. *)
Definition allChanges (r : DiffResult.t) : list HunkChange.t :=
  flat_map Hunk.changes (DiffResult.hunks r).

(** The rows of role [k] whose text is empty. *)
Definition countEmpty (k : ChangeType) (rows : list HunkChange.t) : nat :=
  List.length (filter (fun c => ChangeType_eqb (HunkChange.type c) k
                                && (HunkChange.content c =? "")%string) rows).

(** The lines of a text as the line diff counts them. *)
Definition lineCount (text : string) : nat :=
  List.length (JsDiff.tokenize text).

(** The counters and the rows agree: what the loops maintain. *)
Definition consistent (st : Locals) : Prop :=
  oldNumbers (hunkChanges st) = seq 1 (oldLineNumber st - 1)
  /\ newNumbers (hunkChanges st) = seq 1 (newLineNumber st - 1)
  /\ oldLineNumber st
     = 1 + countType delete (hunkChanges st) + countType normal (hunkChanges st)
  /\ newLineNumber st
     = 1 + countType insert (hunkChanges st) + countType normal (hunkChanges st)
  /\ additions st = countType insert (hunkChanges st)
  /\ deletions st = countType delete (hunkChanges st).

(** Section 4.2, step 4, for the segments [changes]: the rows of the walk
    are the emitted rows in emission order, and the result has one hunk
    around them when there is a row, and none otherwise. *)
Definition assembled (changes : list Change) (r : DiffResult.t) : Prop :=
  let st := walk changes in
  map rowOf (hunkChanges st) = emission changes
  /\ oldLineNumber st - 1
     = countType delete (hunkChanges st) + countType normal (hunkChanges st)
  /\ newLineNumber st - 1
     = countType insert (hunkChanges st) + countType normal (hunkChanges st)
  /\ DiffResult.hunks r
     = match emission changes with
       | [] => []
       | _ :: _ =>
           [Hunk.mk 1 (oldLineNumber st - 1) 1 (newLineNumber st - 1)
                    (hunkHeader st) (hunkChanges st)]
       end.

(** The two statistics count the inserted and the deleted rows. *)
Definition counted (r : DiffResult.t) : Prop :=
  DiffResult.additions r = countType insert (allChanges r)
  /\ DiffResult.deletions r = countType delete (allChanges r).

(** The line numbers of each stream start at 1 and strictly increase. *)
Definition increasing (numbers : list nat) : Prop :=
  StronglySorted lt numbers /\ Forall (le 1) numbers.

Definition numbered (r : DiffResult.t) : Prop :=
  Forall (fun h => increasing (oldNumbers (Hunk.changes h))
                   /\ increasing (newNumbers (Hunk.changes h)))
         (DiffResult.hunks r).

(** The text a run of line tokens covers. *)
Definition joinTokens (tokens : list string) : string :=
  fold_right append "" tokens.

Definition nonEmpty (line : string) : bool := negb (line =? "")%string.

(** The segments of a run of tokens of one classification. *)
Definition uniform (tag : JsDiff.Tag) (tokens : list string) : list Change :=
  match tokens with
  | [] => []
  | _ :: _ => [JsDiff.segment tag (joinTokens tokens)]
  end.

Definition roleOfTag (tag : JsDiff.Tag) : ChangeType :=
  match tag with
  | JsDiff.Added => insert
  | JsDiff.Removed => delete
  | JsDiff.Common => normal
  end.

Definition hasRole (k : ChangeType) (row : ChangeType * string) : bool :=
  ChangeType_eqb (fst row) k.

Definition emptyOfRole (k : ChangeType) (row : ChangeType * string) : bool :=
  ChangeType_eqb (fst row) k && (snd row =? "")%string.

(** The texts of the scenario of section 8: two lines, then a third one
    appended, neither text ending with a terminator. *)
Definition twoLines : string := "line1" ++ NL ++ "line2".

Definition threeLines : string := "line1" ++ NL ++ "line2" ++ NL ++ "line3".

(** A text with a blank line in the middle and no terminator at its end. *)
Definition blankInside : string := "a" ++ NL ++ NL ++ "b".

(** The number of empty inserted or deleted rows a terminator appended to
    [A] surfaces as. *)
Definition emptyRowsFor (A : string) : nat :=
  if (A =? "")%string || endsWithNewline A then 2 else 1.

(** A history of two text versions, the update from the first to the
    second, and a descriptor of a version that is not in the history. *)
Definition sampleHistory : list ArtifactContent.t :=
  [ArtifactContent.ArtifactMarkdownV3 1 "Notes" "alpha";
   ArtifactContent.ArtifactMarkdownV3 2 "Notes" "beta"].

Definition sampleUpdate : ArtifactDiffInfo :=
  {| changeType := update; artifactIndex := 2; previousIndex := Some 1%Z |}.

Definition sampleMissing : ArtifactDiffInfo :=
  {| changeType := update; artifactIndex := 7; previousIndex := Some 1%Z |}.

Definition sampleInputs (d : ArtifactDiffInfo) : Inputs :=
  {| diffId := Some "m1";
     messages := [Message.mk (Some "m1") (Some d)];
     artifact := Some (mkArtifact sampleHistory) |}.

Definition sampleState : PanelState :=
  {| open := true; diffInfo := None;
     diffFiles := [DiffFile.mk "Notes" "Notes" "previous" "current" "modify" []];
     stats := Stats.mk 4 2; console := [] |}.

(** A line diff that always throws. *)
Definition failingDiff (oldText newText : string) : Completion (list Change) :=
  Throw "out of memory".

(** ** The rest of the component *)

(** Lines 23-25: the state cells when the component mounts; the [open] flag
    is the parent's. *)
Definition mounted (opened : bool) : PanelState :=
  {| open := opened; diffInfo := None; diffFiles := [];
     stats := Stats.mk 0 0; console := [] |}.

(** [handleClose] (lines 165-170): the three cells are reset and the query
    parameter is cleared. *)
Definition handleClose (inp : Inputs) (st : PanelState) : Inputs * PanelState :=
  ({| diffId := None; messages := messages inp; artifact := artifact inp |},
   setDiffFiles [] (setDiffInfo None (setOpen false st))).

(** An index printed in a template literal. *)
Definition showIndex (i : Z) : string :=
  NilEmpty.string_of_int (Z.to_int i).

Definition showOptionalIndex (i : option Z) : string :=
  match i with
  | Some i => showIndex i
  | None => "undefined"
  end.

(** The arrow of line 225, as its three UTF-8 bytes. *)
Definition rightArrow : string :=
  String "226"%char (String "134"%char (String "146"%char EmptyString)).

(** Lines 223-225. *)
Definition comparisonLabel (d : ArtifactDiffInfo) : string :=
  match changeType d with
  | create => "Initial version"
  | update =>
      "Version " ++ showOptionalIndex (previousIndex d) ++ " " ++ rightArrow
                 ++ " " ++ showIndex (artifactIndex d)
  end.

(** What [renderDiffFile] (lines 172-200) puts on the screen for one file:
    its key, the path and the two counters of the header, and the hunks
    handed to the diff view, each under its key [hunk.content]. *)
Record FileCard : Type := mkFileCard {
  cardKey : nat;
  cardPath : string;
  cardAdditions : nat;
  cardDeletions : nat;
  cardViewType : string;
  cardDiffType : string;
  cardHunks : list (string * Hunk.t)
}.

Definition renderDiffFile (st : PanelState) (file : DiffFile.t) (index : nat)
  : FileCard :=
  {| cardKey := index;
     cardPath := DiffFile.newPath file;
     cardAdditions := Stats.additions (stats st);
     cardDeletions := Stats.deletions (stats st);
     cardViewType := "split";
     cardDiffType := DiffFile.type file;
     cardHunks := map (fun hunk => (Hunk.content hunk, hunk)) (DiffFile.hunks file) |}.

(** The scrolling part of the panel (lines 244-260). *)
Inductive PanelBody : Type :=
| ShowsFiles (cards : list FileCard)
| ShowsInitialVersion
| ShowsLoading.

Record PanelView : Type := mkPanelView {
  viewLabel : option string;
  viewBody : PanelBody
}.

(** The returned element (lines 202-265): nothing unless [open]; under the
    title the label of the descriptor, if any, then the files, or one of the
    two notices when there is no file. *)
Definition render (st : PanelState) : option PanelView :=
  if open st then
    Some {| viewLabel := option_map comparisonLabel (diffInfo st);
            viewBody :=
              if (0 <? List.length (diffFiles st))%nat then
                ShowsFiles
                  (map (fun entry => renderDiffFile st (fst entry) (snd entry))
                       (combine (diffFiles st)
                                (seq 0 (List.length (diffFiles st)))))
              else
                match diffInfo st with
                | Some d =>
                    match changeType d with
                    | create => ShowsInitialVersion
                    | update => ShowsLoading
                    end
                | None => ShowsLoading
                end |}
  else None.

(** What happens to the panel between two renders: the effect runs on new
    inputs, the close button is clicked, or the parent sets [open]. *)
Inductive Event : Type :=
| EffectRuns (inp : Inputs)
| CloseClicked (inp : Inputs)
| ParentSetsOpen (opened : bool).

Definition step (diffLines : string -> string -> Completion (list Change))
           (st : PanelState) (event : Event) : PanelState :=
  match event with
  | EffectRuns inp => effect diffLines inp st
  | CloseClicked inp => snd (handleClose inp st)
  | ParentSetsOpen opened => setOpen opened st
  end.

Definition run (diffLines : string -> string -> Completion (list Change))
           (events : list Event) (st : PanelState) : PanelState :=
  fold_left (step diffLines) events st.

(** ** Vocabulary of the further statements *)

(** The rows of a file on display. *)
Definition fileRows (file : DiffFile.t) : list HunkChange.t :=
  flat_map Hunk.changes (DiffFile.hunks file).

(** The files and the counters on display belong together: at most one
    file, with at most one hunk, under one non-empty path, and the counters
    are the numbers of its inserted and deleted rows. *)
Definition coherent (st : PanelState) : Prop :=
  match diffFiles st with
  | [] => True
  | [file] =>
      List.length (DiffFile.hunks file) <= 1
      /\ DiffFile.oldPath file = DiffFile.newPath file
      /\ DiffFile.newPath file <> EmptyString
      /\ Stats.additions (stats st) = countType insert (fileRows file)
      /\ Stats.deletions (stats st) = countType delete (fileRows file)
  | _ :: _ :: _ => False
  end.

(** The four cells a render reads. *)
Definition sameDisplay (a b : PanelState) : Prop :=
  open a = open b /\ diffInfo a = diffInfo b
  /\ diffFiles a = diffFiles b /\ stats a = stats b.

(** A row carries the line numbers of its role, and no other. *)
Definition numbersMatchRole (c : HunkChange.t) : bool :=
  match HunkChange.type c, HunkChange.oldLineNumber c, HunkChange.newLineNumber c with
  | insert, None, Some _ => true
  | delete, Some _, None => true
  | normal, Some _, Some _ => true
  | _, _, _ => false
  end.

Fixpoint hasLF (s : string) : bool :=
  match s with
  | EmptyString => false
  | String c rest => isLF c || hasLF rest
  end.

(** A segment and a result seen from the other side: added and removed,
    old and new exchanged. *)
Definition mirrorChange (change : Change) : Change :=
  {| value := value change; added := removed change; removed := added change |}.

Definition mirrorType (k : ChangeType) : ChangeType :=
  match k with
  | insert => delete
  | delete => insert
  | normal => normal
  end.

Definition mirrorRow (c : HunkChange.t) : HunkChange.t :=
  HunkChange.mk (mirrorType (HunkChange.type c)) (HunkChange.content c)
                (HunkChange.newLineNumber c) (HunkChange.oldLineNumber c).

Definition mirrorLocals (st : Locals) : Locals :=
  {| hunkChanges := map mirrorRow (hunkChanges st);
     oldLineNumber := newLineNumber st;
     newLineNumber := oldLineNumber st;
     additions := deletions st;
     deletions := additions st |}.

Definition mirrorHunk (h : Hunk.t) : Hunk.t :=
  Hunk.mk (Hunk.newStart h) (Hunk.newLines h) (Hunk.oldStart h) (Hunk.oldLines h)
          ("@@ -1," ++ showNumber (Hunk.newLines h) ++ " +1,"
                    ++ showNumber (Hunk.oldLines h) ++ " @@")
          (map mirrorRow (Hunk.changes h)).

Definition mirrorResult (r : DiffResult.t) : DiffResult.t :=
  DiffResult.mk (map mirrorHunk (DiffResult.hunks r))
                (DiffResult.deletions r) (DiffResult.additions r).

(** A segment is not flagged both added and removed. *)
Definition oneSided (change : Change) : bool :=
  negb (added change && removed change).

(** A row moved down by the lines that precede it. *)
Definition shiftRow (oldBefore newBefore : nat) (c : HunkChange.t) : HunkChange.t :=
  HunkChange.mk (HunkChange.type c) (HunkChange.content c)
                (option_map (Nat.add oldBefore) (HunkChange.oldLineNumber c))
                (option_map (Nat.add newBefore) (HunkChange.newLineNumber c)).

(** The locals [st0] continued after [pre] rows and the given counts. *)
Definition graft (pre : list HunkChange.t) (oldBefore newBefore added0 deleted0 : nat)
           (st0 : Locals) : Locals :=
  {| hunkChanges := pre ++ map (shiftRow oldBefore newBefore) (hunkChanges st0);
     oldLineNumber := oldBefore + oldLineNumber st0;
     newLineNumber := newBefore + newLineNumber st0;
     additions := added0 + additions st0;
     deletions := deleted0 + deletions st0 |}.

(** Segments as the line diff hands them over, for the examples. *)
Definition sampleChanges : list Change :=
  [mkChange ("a" ++ NL) false false; mkChange "b" false true;
   mkChange ("c" ++ NL ++ "d") true false].


Definition sampleSelf : ArtifactDiffInfo :=
  {| changeType := update; artifactIndex := 2; previousIndex := Some 2%Z |}.

Definition sampleCreate : ArtifactDiffInfo :=
  {| changeType := create; artifactIndex := 2; previousIndex := Some 1%Z |}.

(** The modelled line diff as a call that returns. *)
Definition returningDiff (oldText newText : string) : Completion (list Change) :=
  Return (JsDiff.diffLines oldText newText).

(** What a render may show of the files: nothing, a notice, or one card
    with key 0, at most one hunk, a non-empty path, and the counters of its
    own rows. *)
Definition cardRows (card : FileCard) : list HunkChange.t :=
  flat_map (fun keyed => Hunk.changes (snd keyed)) (cardHunks card).

Definition soundCard (card : FileCard) : Prop :=
  cardKey card = 0
  /\ List.length (cardHunks card) <= 1
  /\ cardPath card <> EmptyString
  /\ cardAdditions card = countType insert (cardRows card)
  /\ cardDeletions card = countType delete (cardRows card).

Definition soundView (shown : option PanelView) : Prop :=
  match shown with
  | Some view =>
      match viewBody view with
      | ShowsFiles cards => exists card, cards = [card] /\ soundCard card
      | ShowsInitialVersion | ShowsLoading => True
      end
  | None => True
  end.

(** ** The loops *)

Lemma fold_left_preserves (A B : Type) (P : A -> Prop) (f : A -> B -> A) :
  (forall a b, P a -> P (f a b)) ->
  forall l a, P a -> P (fold_left f l a).
Proof.
  intros step l; induction l as [|b l IH]; intros a Pa; simpl.
  - exact Pa.
  - apply IH, step, Pa.
Qed.

Lemma seq_snoc (n : nat) : 1 <= n -> seq 1 (n - 1) ++ [n] = seq 1 (S n - 1).
Proof.
  intros Hn. destruct n as [|k]; [lia|].
  replace (S (S k) - 1) with (S k) by lia.
  replace (S k - 1) with k by lia.
  rewrite seq_S. reflexivity.
Qed.

Lemma countType_snoc (k : ChangeType) (rows : list HunkChange.t) (c : HunkChange.t) :
  countType k (rows ++ [c])
  = countType k rows + (if ChangeType_eqb (HunkChange.type c) k then 1 else 0).
Proof.
  unfold countType. rewrite filter_app, length_app. simpl.
  destruct (ChangeType_eqb (HunkChange.type c) k); reflexivity.
Qed.

Lemma initially_consistent : consistent initially.
Proof. repeat split. Qed.

Ltac push_consistent :=
  intros st line (Ho & Hn & Hol & Hnl & Ha & Hd);
  unfold consistent, oldNumbers, newNumbers in *; simpl;
  rewrite !flat_map_app, !countType_snoc; simpl;
  rewrite ?app_nil_r, ?Ho, ?Hn;
  repeat split; try lia; try reflexivity; apply seq_snoc; lia.

Lemma pushInsert_consistent : forall st line,
  consistent st -> consistent (pushInsert st line).
Proof. push_consistent. Qed.

Lemma pushDelete_consistent : forall st line,
  consistent st -> consistent (pushDelete st line).
Proof. push_consistent. Qed.

Lemma pushNormal_consistent : forall st line,
  consistent st -> consistent (pushNormal st line).
Proof. push_consistent. Qed.

Lemma visitChange_consistent (st : Locals) (change : Change) :
  consistent st -> consistent (visitChange st change).
Proof.
  intros H. unfold visitChange.
  destruct (added change); [|destruct (removed change)];
    apply fold_left_preserves;
    auto using pushInsert_consistent, pushDelete_consistent, pushNormal_consistent.
Qed.

Lemma walk_consistent (changes : list Change) : consistent (walk changes).
Proof.
  unfold walk. apply fold_left_preserves.
  - intros a b; apply visitChange_consistent.
  - exact initially_consistent.
Qed.

Lemma rows_fold_push (push : Locals -> string -> Locals) (k : ChangeType) :
  (forall st line,
      map rowOf (hunkChanges (push st line))
      = map rowOf (hunkChanges st) ++ [(k, line)]) ->
  forall lines st,
    map rowOf (hunkChanges (fold_left push lines st))
    = map rowOf (hunkChanges st) ++ map (pair k) lines.
Proof.
  intros Hpush lines; induction lines as [|line lines IH]; intros st; simpl.
  - now rewrite app_nil_r.
  - rewrite IH, Hpush, <- app_assoc. reflexivity.
Qed.

Lemma rows_visitChange (st : Locals) (change : Change) :
  map rowOf (hunkChanges (visitChange st change))
  = map rowOf (hunkChanges st) ++ map (pair (roleOf change)) (splitLines change).
Proof.
  unfold visitChange, roleOf.
  destruct (added change); [|destruct (removed change)];
    apply rows_fold_push; intros st' line; simpl;
    rewrite map_app; reflexivity.
Qed.

Lemma rows_fold_visitChange (changes : list Change) : forall st,
  map rowOf (hunkChanges (fold_left visitChange changes st))
  = map rowOf (hunkChanges st) ++ emission changes.
Proof.
  induction changes as [|change changes IH]; intros st; simpl.
  - now rewrite app_nil_r.
  - rewrite IH, rows_visitChange, <- app_assoc. reflexivity.
Qed.

Lemma rows_walk (changes : list Change) :
  map rowOf (hunkChanges (walk changes)) = emission changes.
Proof. unfold walk. now rewrite rows_fold_visitChange. Qed.

Lemma assemble_changes (st : Locals) :
  flat_map Hunk.changes (assemble st) = hunkChanges st.
Proof.
  unfold assemble. destruct (hunkChanges st) as [|c rows] eqn:E; simpl.
  - reflexivity.
  - now rewrite app_nil_r.
Qed.

Lemma allChanges_buildHunks (changes : list Change) :
  allChanges (buildHunks changes) = hunkChanges (walk changes).
Proof. apply assemble_changes. Qed.

Lemma buildHunks_assembled (changes : list Change) :
  assembled changes (buildHunks changes).
Proof.
  unfold assembled. simpl. split; [apply rows_walk|].
  destruct (walk_consistent changes) as (_ & _ & Hol & Hnl & _).
  split; [lia|]. split; [lia|].
  rewrite <- rows_walk. unfold assemble.
  destruct (hunkChanges (walk changes)); reflexivity.
Qed.

Lemma buildHunks_counted (changes : list Change) : counted (buildHunks changes).
Proof.
  unfold counted. rewrite allChanges_buildHunks.
  destruct (walk_consistent changes) as (_ & _ & _ & _ & Ha & Hd).
  simpl. split; assumption.
Qed.

Lemma seq_increasing (len : nat) : increasing (seq 1 len).
Proof.
  split.
  - generalize 1. induction len as [|len IH]; intros start; simpl.
    + constructor.
    + constructor; [apply IH|].
      apply Forall_forall. intros x Hx. apply in_seq in Hx. lia.
  - apply Forall_forall. intros x Hx. apply in_seq in Hx. lia.
Qed.

Lemma buildHunks_numbered (changes : list Change) : numbered (buildHunks changes).
Proof.
  unfold numbered. simpl. unfold assemble.
  destruct (0 <? List.length (hunkChanges (walk changes)))%nat; constructor.
  - simpl. destruct (walk_consistent changes) as (Ho & Hn & _).
    rewrite Ho, Hn. split; apply seq_increasing.
  - constructor.
Qed.

(** ** Strings, pieces and tokens *)

Lemma append_empty_r (s : string) : (s ++ "")%string = s.
Proof. induction s as [|c s IH]; simpl; [reflexivity | now rewrite IH]. Qed.

Lemma append_NL_neq (s : string) : s <> (s ++ NL)%string.
Proof.
  induction s as [|c s IH]; simpl; [discriminate|].
  intros H. injection H as H. contradiction.
Qed.

Lemma splitNewline_not_nil (s : string) : splitNewline s <> [].
Proof.
  destruct s as [|c s]; simpl; [discriminate|].
  destruct (isLF c); [discriminate|].
  destruct (splitNewline s); discriminate.
Qed.

Lemma splitNewline_snoc_NL (s : string) :
  splitNewline (s ++ NL) = splitNewline s ++ [EmptyString].
Proof.
  induction s as [|c s IH]; simpl; [reflexivity|].
  rewrite IH. destruct (isLF c); [reflexivity|].
  destruct (splitNewline s) as [|piece pieces] eqn:E; [|reflexivity].
  now apply splitNewline_not_nil in E.
Qed.

Lemma endsWithNewline_snoc_NL (s : string) : endsWithNewline (s ++ NL) = true.
Proof.
  induction s as [|c s IH]; [reflexivity|].
  simpl. destruct (s ++ NL)%string eqn:E; [|exact IH].
  destruct s; discriminate.
Qed.

Lemma endsWithNewline_inv (s : string) :
  endsWithNewline s = true -> exists s', s = (s' ++ NL)%string.
Proof.
  induction s as [|c s IH]; intros H; [discriminate|].
  destruct s as [|c' s'].
  - simpl in H. apply Ascii.eqb_eq in H. subst c. now exists EmptyString.
  - destruct (IH H) as (r & E). exists (String c r). simpl. now rewrite <- E.
Qed.

Lemma last_piece_empty (s : string) (d : string) :
  endsWithNewline s = true -> List.last (splitNewline s) d = EmptyString.
Proof.
  intros H. destruct (endsWithNewline_inv s H) as (r & ->).
  rewrite splitNewline_snoc_NL. apply last_last.
Qed.

Lemma filter_all (A : Type) (f : A -> bool) (l : list A) :
  (forall a, f a = true) -> filter f l = l.
Proof.
  intros H; induction l as [|a l IH]; simpl; [reflexivity|].
  now rewrite H, IH.
Qed.

Lemma splitLines_cases (change : Change) :
  splitLines change
  = if endsWithNewline (value change) then splitNewline (value change)
    else filter nonEmpty (splitNewline (value change)).
Proof.
  unfold splitLines. destruct (endsWithNewline (value change)).
  - apply filter_all. intros a. apply orb_true_r.
  - apply filter_ext. intros a. apply orb_false_r.
Qed.

Lemma open_text_has_a_line (s : string) :
  s <> EmptyString -> endsWithNewline s = false ->
  filter nonEmpty (splitNewline s) <> [].
Proof.
  induction s as [|c s IH]; intros Hne Hend; [contradiction|].
  simpl. destruct (isLF c) eqn:Ec.
  - simpl. destruct s as [|c' s'].
    + simpl in Hend. congruence.
    + apply IH; [discriminate | exact Hend].
  - destruct (splitNewline s); simpl; discriminate.
Qed.

Lemma splitLines_nil_iff (change : Change) :
  splitLines change = [] <-> value change = EmptyString.
Proof.
  rewrite splitLines_cases. split.
  - intros H. destruct (value change) as [|c s] eqn:E; [reflexivity|].
    destruct (endsWithNewline (String c s)) eqn:Hend.
    + now apply splitNewline_not_nil in H.
    + apply open_text_has_a_line in H; [contradiction | discriminate | exact Hend].
  - intros ->. reflexivity.
Qed.

Lemma tokenize_nil_iff (s : string) : JsDiff.tokenize s = [] <-> s = EmptyString.
Proof.
  split; [|intros ->; reflexivity].
  destruct s as [|c s]; [reflexivity|]. simpl.
  destruct (isLF c); [discriminate|].
  destruct (JsDiff.tokenize s); discriminate.
Qed.

Lemma joinTokens_tokenize (s : string) : joinTokens (JsDiff.tokenize s) = s.
Proof.
  induction s as [|c s IH]; [reflexivity|].
  simpl. destruct (isLF c) eqn:Ec.
  - simpl. now rewrite IH.
  - destruct (JsDiff.tokenize s) as [|token tokens] eqn:E.
    + simpl in IH. subst s. reflexivity.
    + simpl in *. now rewrite IH.
Qed.

Lemma tokenize_cons (c : ascii) (s : string) :
  JsDiff.tokenize (String c s)
  = if isLF c then String c EmptyString :: JsDiff.tokenize s
    else match JsDiff.tokenize s with
         | token :: tokens => String c token :: tokens
         | [] => [String c EmptyString]
         end.
Proof. reflexivity. Qed.

(** A text that is empty or ends with a terminator gains the token ["\n"]
    when a terminator is appended. *)
Lemma tokenize_closed (s : string) :
  (s =? "")%string || endsWithNewline s = true ->
  JsDiff.tokenize (s ++ NL) = JsDiff.tokenize s ++ [NL].
Proof.
  induction s as [|c s IH]; intros H; [reflexivity|].
  simpl in H. destruct s as [|c' s'].
  - simpl. rewrite H. reflexivity.
  - specialize (IH H). simpl in IH |- *.
    rewrite IH. destruct (isLF c); [reflexivity|].
    destruct (isLF c'); [reflexivity|].
    destruct (JsDiff.tokenize s'); reflexivity.
Qed.

(** Otherwise the terminator joins the last token, which is a line of its
    own without a terminator. *)
Lemma tokenize_open (s : string) :
  (s =? "")%string || endsWithNewline s = false ->
  exists tokens last,
    JsDiff.tokenize s = tokens ++ [last]
    /\ JsDiff.tokenize (s ++ NL) = tokens ++ [(last ++ NL)%string]
    /\ last <> EmptyString
    /\ splitNewline last = [last].
Proof.
  induction s as [|c s IH]; intros H; [discriminate|].
  destruct (string_dec s EmptyString) as [->|Hs].
  - simpl in H. exists [], (String c EmptyString). simpl. rewrite H. simpl.
    repeat split; discriminate.
  - assert (H' : (s =? "")%string || endsWithNewline s = false).
    { apply String.eqb_neq in Hs. rewrite Hs.
      destruct s; [discriminate | exact H]. }
    destruct (IH H') as (tokens & last & Ht & Ht' & Hne & Hsplit).
    change ((String c s ++ NL)%string) with (String c (s ++ NL)).
    rewrite !tokenize_cons, Ht, Ht'. destruct (isLF c) eqn:Ec.
    + exists (String c EmptyString :: tokens), last. auto.
    + destruct tokens as [|token tokens].
      * exists [], (String c last). simpl. rewrite Ec, Hsplit.
        repeat split; discriminate.
      * exists (String c token :: tokens), last. auto.
Qed.

(** ** The modelled line diff on related texts *)

Lemma editScript_prefix (common old new : list string) :
  JsDiff.editScript (common ++ old) (common ++ new)
  = map (pair JsDiff.Common) common ++ JsDiff.editScript old new.
Proof.
  induction common as [|x common IH]; [reflexivity|].
  simpl. rewrite String.eqb_refl, IH. reflexivity.
Qed.

Lemma editScript_same (tokens : list string) :
  JsDiff.editScript tokens tokens = map (pair JsDiff.Common) tokens.
Proof.
  rewrite <- (app_nil_r tokens) at 1 2.
  rewrite editScript_prefix. simpl. now rewrite app_nil_r.
Qed.

Lemma editScript_replace_one (x y : string) :
  x <> y ->
  JsDiff.editScript [x] [y] = [(JsDiff.Removed, x); (JsDiff.Added, y)].
Proof.
  intros H. apply String.eqb_neq in H. simpl. rewrite H. reflexivity.
Qed.

Lemma tagOf_segment (tag : JsDiff.Tag) (v : string) :
  JsDiff.tagOf (JsDiff.segment tag v) = tag.
Proof. destruct tag; reflexivity. Qed.

Lemma Tag_eqb_refl (tag : JsDiff.Tag) : JsDiff.Tag_eqb tag tag = true.
Proof. destruct tag; reflexivity. Qed.

Lemma segments_uniform_prefix (tag : JsDiff.Tag) (rest : list (JsDiff.Tag * string)) :
  match JsDiff.segments rest with
  | change :: _ => JsDiff.Tag_eqb tag (JsDiff.tagOf change) = false
  | [] => True
  end ->
  forall tokens,
    JsDiff.segments (map (pair tag) tokens ++ rest)
    = uniform tag tokens ++ JsDiff.segments rest.
Proof.
  intros Hrest tokens; induction tokens as [|token tokens IH]; [reflexivity|].
  simpl. rewrite IH. destruct tokens as [|token' tokens].
  - simpl. rewrite append_empty_r.
    destruct (JsDiff.segments rest) as [|change changes]; [reflexivity|].
    now rewrite Hrest.
  - simpl. rewrite tagOf_segment, Tag_eqb_refl. reflexivity.
Qed.

Lemma segments_uniform (tag : JsDiff.Tag) (tokens : list string) :
  JsDiff.segments (map (pair tag) tokens) = uniform tag tokens.
Proof.
  rewrite <- (app_nil_r (map (pair tag) tokens)).
  rewrite segments_uniform_prefix; [apply app_nil_r | exact I].
Qed.

Lemma diffLines_same (A : string) :
  JsDiff.diffLines A A = uniform JsDiff.Common (JsDiff.tokenize A).
Proof.
  unfold JsDiff.diffLines. now rewrite editScript_same, segments_uniform.
Qed.

Lemma diffLines_from_empty (B : string) :
  JsDiff.diffLines "" B = uniform JsDiff.Added (JsDiff.tokenize B).
Proof. unfold JsDiff.diffLines. simpl. apply segments_uniform. Qed.

(** ** Rows of the result, read off the emission *)

Lemma emission_app (a b : list Change) :
  emission (a ++ b) = emission a ++ emission b.
Proof. apply flat_map_app. Qed.

Lemma emission_cons (change : Change) (changes : list Change) :
  emission (change :: changes)
  = map (pair (roleOf change)) (splitLines change) ++ emission changes.
Proof. reflexivity. Qed.

Lemma emission_one (change : Change) :
  emission [change] = map (pair (roleOf change)) (splitLines change).
Proof. unfold emission. simpl. apply app_nil_r. Qed.

Lemma emission_uniform (tag : JsDiff.Tag) (text : string) :
  emission (uniform tag (JsDiff.tokenize text))
  = map (pair (roleOfTag tag)) (splitLines (JsDiff.segment tag text)).
Proof.
  unfold uniform. destruct (JsDiff.tokenize text) as [|token tokens] eqn:E.
  - apply tokenize_nil_iff in E. subst text. reflexivity.
  - rewrite <- E, joinTokens_tokenize, emission_one.
    destruct tag; reflexivity.
Qed.

Lemma length_filter_map (A B : Type) (f : B -> bool) (g : A -> B) (l : list A) :
  List.length (filter f (map g l)) = List.length (filter (fun a => f (g a)) l).
Proof.
  induction l as [|a l IH]; simpl; [reflexivity|].
  destruct (f (g a)); simpl; now rewrite IH.
Qed.

Lemma countType_emission (k : ChangeType) (changes : list Change) :
  countType k (allChanges (buildHunks changes))
  = List.length (filter (hasRole k) (emission changes)).
Proof.
  rewrite allChanges_buildHunks, <- rows_walk, length_filter_map. reflexivity.
Qed.

Lemma countEmpty_emission (k : ChangeType) (changes : list Change) :
  countEmpty k (allChanges (buildHunks changes))
  = List.length (filter (emptyOfRole k) (emission changes)).
Proof.
  rewrite allChanges_buildHunks, <- rows_walk, length_filter_map. reflexivity.
Qed.

Lemma additions_emission (changes : list Change) :
  DiffResult.additions (buildHunks changes)
  = List.length (filter (hasRole insert) (emission changes)).
Proof.
  rewrite <- countType_emission. apply buildHunks_counted.
Qed.

Lemma deletions_emission (changes : list Change) :
  DiffResult.deletions (buildHunks changes)
  = List.length (filter (hasRole delete) (emission changes)).
Proof.
  rewrite <- countType_emission. apply buildHunks_counted.
Qed.

Lemma hunks_emission (changes : list Change) :
  List.length (DiffResult.hunks (buildHunks changes))
  = match emission changes with [] => 0 | _ :: _ => 1 end.
Proof.
  destruct (buildHunks_assembled changes) as (_ & _ & _ & ->).
  destruct (emission changes); reflexivity.
Qed.

Lemma types_emission (k : ChangeType) (changes : list Change) :
  Forall (fun row => fst row = k) (emission changes) ->
  Forall (fun c => HunkChange.type c = k) (allChanges (buildHunks changes)).
Proof.
  rewrite allChanges_buildHunks, <- rows_walk.
  rewrite Forall_map. apply Forall_impl. intros c H. exact H.
Qed.

Lemma filter_role_other (p : ChangeType * string -> bool) (k : ChangeType)
      (rows : list (ChangeType * string)) :
  (forall row, fst row = k -> p row = false) ->
  Forall (fun row => fst row = k) rows ->
  filter p rows = [].
Proof.
  intros Hp H; induction H as [|row rows Hrow _ IH]; simpl; [reflexivity|].
  now rewrite (Hp row Hrow).
Qed.

Lemma emission_role (k : ChangeType) (lines : list string) :
  Forall (fun row : ChangeType * string => fst row = k) (map (pair k) lines).
Proof. rewrite Forall_map. apply Forall_forall. reflexivity. Qed.

Lemma ChangeType_eqb_refl (k : ChangeType) : ChangeType_eqb k k = true.
Proof. destruct k; reflexivity. Qed.

Lemma hasRole_same (k : ChangeType) (lines : list string) :
  List.length (filter (hasRole k) (map (pair k) lines)) = List.length lines.
Proof.
  rewrite length_filter_map, filter_all; [reflexivity|].
  intros line. apply ChangeType_eqb_refl.
Qed.

Lemma emission_uniform_role (tag : JsDiff.Tag) (text : string) :
  Forall (fun row => fst row = roleOfTag tag)
         (emission (uniform tag (JsDiff.tokenize text))).
Proof. rewrite emission_uniform. apply emission_role. Qed.

Lemma splitLines_open_token (tag : JsDiff.Tag) (t : string) :
  t <> EmptyString -> splitNewline t = [t] ->
  splitLines (JsDiff.segment tag t) = [t].
Proof.
  intros Hne Hsplit. rewrite splitLines_cases. simpl. rewrite Hsplit.
  destruct (endsWithNewline t); [reflexivity|].
  simpl. unfold nonEmpty. apply String.eqb_neq in Hne. now rewrite Hne.
Qed.

Lemma splitLines_closed_token (tag : JsDiff.Tag) (t : string) :
  splitNewline t = [t] ->
  splitLines (JsDiff.segment tag (t ++ NL)) = [t; EmptyString].
Proof.
  intros Hsplit. rewrite splitLines_cases. simpl.
  now rewrite endsWithNewline_snoc_NL, splitNewline_snoc_NL, Hsplit.
Qed.

Lemma diffLines_append_closed (A : string) :
  (A =? "")%string || endsWithNewline A = true ->
  JsDiff.diffLines A (A ++ NL)
  = uniform JsDiff.Common (JsDiff.tokenize A) ++ [JsDiff.segment JsDiff.Added NL]
  /\ JsDiff.diffLines (A ++ NL) A
     = uniform JsDiff.Common (JsDiff.tokenize A)
       ++ [JsDiff.segment JsDiff.Removed NL].
Proof.
  intros H. unfold JsDiff.diffLines. rewrite (tokenize_closed A H). split.
  - rewrite <- (app_nil_r (JsDiff.tokenize A)) at 1.
    rewrite editScript_prefix. now apply segments_uniform_prefix.
  - rewrite <- (app_nil_r (JsDiff.tokenize A)) at 2.
    rewrite editScript_prefix. now apply segments_uniform_prefix.
Qed.

Lemma diffLines_append_open (A : string) :
  (A =? "")%string || endsWithNewline A = false ->
  exists t,
    t <> EmptyString /\ splitNewline t = [t]
    /\ (exists tokens,
          JsDiff.diffLines A (A ++ NL)
          = uniform JsDiff.Common tokens
            ++ [JsDiff.segment JsDiff.Removed t;
                JsDiff.segment JsDiff.Added (t ++ NL)]
          /\ JsDiff.diffLines (A ++ NL) A
             = uniform JsDiff.Common tokens
               ++ [JsDiff.segment JsDiff.Removed (t ++ NL);
                   JsDiff.segment JsDiff.Added t]).
Proof.
  intros H. destruct (tokenize_open A H) as (tokens & t & Ht & Ht' & Hne & Hsplit).
  exists t. split; [exact Hne|]. split; [exact Hsplit|]. exists tokens.
  unfold JsDiff.diffLines. rewrite Ht, Ht', !editScript_prefix.
  rewrite !editScript_replace_one.
  - split; now apply segments_uniform_prefix.
  - intros E. symmetry in E. now apply append_NL_neq in E.
  - apply append_NL_neq.
Qed.

Lemma uniform_common_role (tokens : list string) :
  Forall (fun row => fst row = normal) (emission (uniform JsDiff.Common tokens)).
Proof.
  destruct tokens as [|token tokens]; [constructor|].
  unfold uniform. rewrite emission_one. apply emission_role.
Qed.

Lemma emptyOfRole_after_common (k : ChangeType) (tokens : list string)
      (rest : list Change) :
  k <> normal ->
  List.length (filter (emptyOfRole k)
                 (emission (uniform JsDiff.Common tokens ++ rest)))
  = List.length (filter (emptyOfRole k) (emission rest)).
Proof.
  intros Hk. rewrite emission_app, filter_app, length_app.
  rewrite (filter_role_other (emptyOfRole k) normal); [reflexivity | |].
  - intros [k' line] E. simpl in E. subst k'. unfold emptyOfRole. simpl.
    destruct k; [reflexivity | reflexivity | contradiction].
  - apply uniform_common_role.
Qed.

(** ** Claims about the hunk builder, for every list of segments *)

(** C7: for the segments of every pair of texts (and for any other list of
    segments), when at least one row is emitted the result has exactly one
    hunk with [oldStart = 1], [newStart = 1], [oldLines] and [newLines] the
    final values of the two line counters minus 1, holding all the emitted
    rows in emission order; when no row is emitted there is no hunk. *)
Theorem C7_one_hunk_from_the_counters :
  (forall changes, assembled changes (buildHunks changes))
  /\ (forall oldText newText,
        assembled (JsDiff.diffLines oldText newText) (buildDiff oldText newText)).
Proof.
  split; intros; apply buildHunks_assembled.
Qed.

(** C8: for every pair of texts (and any list of segments), [additions] is
    the number of rows of type insert over all hunks of the result, and
    [deletions] the number of rows of type delete. *)
Theorem C8_stats_count_the_rows :
  (forall changes, counted (buildHunks changes))
  /\ (forall oldText newText, counted (buildDiff oldText newText)).
Proof.
  split; intros; apply buildHunks_counted.
Qed.

(** C10: for every pair of texts (and any list of segments), in every hunk
    the old line numbers of the rows that carry one strictly increase in
    emission order, and so do the new line numbers; all are at least 1. *)
Theorem C10_line_numbers_increase :
  (forall changes, numbered (buildHunks changes))
  /\ (forall oldText newText, numbered (buildDiff oldText newText)).
Proof.
  split; intros; apply buildHunks_numbered.
Qed.

(** ** Claims about whole texts *)

(** C1: claimed, for every text [A], no hunk and no addition or deletion.
    The text ["a"] compared with itself gives one hunk. *)
Lemma C1_identical_texts_counterexample :
  ~ (DiffResult.hunks (buildDiff "a" "a") = []
     /\ DiffResult.additions (buildDiff "a" "a") = 0
     /\ DiffResult.deletions (buildDiff "a" "a") = 0).
Proof. intros (H & _). vm_compute in H. discriminate H. Qed.

(** C1, amended: for every text [A], [buildDiff A A] has [additions = 0] and
    [deletions = 0], every row is of type normal, and there is no hunk when
    [A] is empty and exactly one hunk otherwise; the texts of its rows are,
    in order, the lines the splitting rule gives [A]: all the pieces of [A]
    between terminators, the empty last one included, when [A] ends with a
    terminator, and the non-empty pieces of [A] otherwise. *)
Theorem C1_identical_texts (A : string) :
  DiffResult.additions (buildDiff A A) = 0
  /\ DiffResult.deletions (buildDiff A A) = 0
  /\ Forall (fun c => HunkChange.type c = normal) (allChanges (buildDiff A A))
  /\ List.length (DiffResult.hunks (buildDiff A A))
     = (if (A =? "")%string then 0 else 1)
  /\ map HunkChange.content (allChanges (buildDiff A A))
     = if endsWithNewline A then splitNewline A
       else filter nonEmpty (splitNewline A).
Proof.
  unfold buildDiff. rewrite diffLines_same.
  pose proof (emission_uniform_role JsDiff.Common A) as Hrole.
  split; [|split; [|split; [|split]]].
  - rewrite additions_emission.
    rewrite (filter_role_other _ normal); [reflexivity | | exact Hrole].
    intros [k line] E; simpl in E; subst k; reflexivity.
  - rewrite deletions_emission.
    rewrite (filter_role_other _ normal); [reflexivity | | exact Hrole].
    intros [k line] E; simpl in E; subst k; reflexivity.
  - apply types_emission. exact Hrole.
  - rewrite hunks_emission, emission_uniform.
    destruct (String.eqb_spec A "") as [->|Hne]; [reflexivity|].
    destruct (splitLines (JsDiff.segment JsDiff.Common A)) eqn:E; [|reflexivity].
    apply splitLines_nil_iff in E. contradiction.
  - rewrite allChanges_buildHunks.
    change HunkChange.content with (fun c => snd (rowOf c)).
    rewrite <- (map_map rowOf snd), rows_walk, emission_uniform, map_map.
    simpl. rewrite map_id. apply splitLines_cases.
Qed.

(** C3: claimed, for ["line1\nline2"] against ["line1\nline2\nline3"], one
    hunk of 3 rows with [additions = 1] and [deletions = 0].  The result has
    5 rows, 2 additions and 1 deletion. *)
Lemma C3_scenario_counterexample :
  ~ (exists h,
        DiffResult.hunks (buildDiff twoLines threeLines) = [h]
        /\ List.length (Hunk.changes h) = 3
        /\ countType normal (Hunk.changes h) = 2
        /\ countType insert (Hunk.changes h) = 1
        /\ DiffResult.additions (buildDiff twoLines threeLines) = 1
        /\ DiffResult.deletions (buildDiff twoLines threeLines) = 0).
Proof.
  intros (h & _ & _ & _ & _ & _ & H). vm_compute in H. discriminate H.
Qed.

(** C3, amended: for ["line1\nline2"] against ["line1\nline2\nline3"] the
    result is one hunk of 5 rows: ["line1"] unchanged (1, 1), an empty line
    unchanged (2, 2), ["line2"] deleted (old 3), ["line2"] inserted (new 3)
    and ["line3"] inserted (new 4), with [additions = 2] and
    [deletions = 1]. *)
Theorem C3_scenario :
  buildDiff twoLines threeLines
  = DiffResult.mk
      [Hunk.mk 1 3 1 4 "@@ -1,3 +1,4 @@"
         [HunkChange.mk normal "line1" (Some 1) (Some 1);
          HunkChange.mk normal "" (Some 2) (Some 2);
          HunkChange.mk delete "line2" (Some 3) None;
          HunkChange.mk insert "line2" None (Some 3);
          HunkChange.mk insert "line3" None (Some 4)]]
      2 1.
Proof. vm_compute. reflexivity. Qed.

(** C4: claimed, [additions] is the number of lines of [B].  The text
    ["a\n\nb"] has 3 lines, by its line tokens and by its pieces alike, and
    [buildDiff "" "a\n\nb"] has 2 additions. *)
Lemma C4_from_empty_counterexample :
  DiffResult.additions (buildDiff "" blankInside) <> lineCount blankInside
  /\ DiffResult.additions (buildDiff "" blankInside)
     <> List.length (splitNewline blankInside).
Proof. vm_compute. split; intros H; discriminate H. Qed.

(** C4, amended: for every text [B], [buildDiff "" B] has as many additions
    as the splitting rule gives lines to [B] (all the pieces of [B] when it
    ends with a terminator, its non-empty pieces otherwise), [deletions = 0],
    every row of type insert, and one hunk unless [B] is empty. *)
Theorem C4_from_empty (B : string) :
  DiffResult.additions (buildDiff "" B)
  = List.length (if endsWithNewline B then splitNewline B
                 else filter nonEmpty (splitNewline B))
  /\ DiffResult.deletions (buildDiff "" B) = 0
  /\ Forall (fun c => HunkChange.type c = insert) (allChanges (buildDiff "" B))
  /\ List.length (DiffResult.hunks (buildDiff "" B))
     = if (B =? "")%string then 0 else 1.
Proof.
  unfold buildDiff. rewrite diffLines_from_empty.
  pose proof (emission_uniform_role JsDiff.Added B) as Hrole.
  repeat split.
  - rewrite additions_emission, emission_uniform, hasRole_same.
    now rewrite splitLines_cases.
  - rewrite deletions_emission.
    rewrite (filter_role_other _ insert); [reflexivity | | exact Hrole].
    intros [k line] E; simpl in E; subst k; reflexivity.
  - apply types_emission. exact Hrole.
  - rewrite hunks_emission, emission_uniform.
    destruct (String.eqb_spec B "") as [->|Hne]; [reflexivity|].
    destruct (splitLines (JsDiff.segment JsDiff.Added B)) eqn:E; [|reflexivity].
    apply splitLines_nil_iff in E. contradiction.
Qed.

(** C2: claimed, texts that differ only in a trailing terminator give
    exactly one inserted or deleted empty row.  The empty text against
    ["\n"] gives two inserted empty rows. *)
Lemma C2_trailing_newline_counterexample :
  countEmpty insert (allChanges (buildDiff "" NL))
  + countEmpty delete (allChanges (buildDiff "" NL)) <> 1.
Proof. vm_compute. intros H. discriminate H. Qed.

(** C2, amended: the lines of a segment are all its pieces, the empty last
    one included, when its text ends with a terminator, and its non-empty
    pieces otherwise (no empty line is kept then); consequently a terminator
    appended to a text [A] surfaces as exactly one inserted (or, the other
    way round, deleted) empty row when [A] is non-empty and does not end
    with a terminator, and as two such rows when [A] is empty or ends with a
    terminator. *)
Theorem C2_split_rule_and_trailing_newline :
  (forall change,
      splitLines change
      = if endsWithNewline (value change) then splitNewline (value change)
        else filter nonEmpty (splitNewline (value change)))
  /\ (forall change,
        if endsWithNewline (value change)
        then List.last (splitLines change) "none"%string = EmptyString
        else Forall (fun line => line <> EmptyString) (splitLines change))
  /\ (forall A,
        countEmpty insert (allChanges (buildDiff A (A ++ NL))) = emptyRowsFor A
        /\ countEmpty delete (allChanges (buildDiff A (A ++ NL))) = 0
        /\ countEmpty delete (allChanges (buildDiff (A ++ NL) A)) = emptyRowsFor A
        /\ countEmpty insert (allChanges (buildDiff (A ++ NL) A)) = 0).
Proof.
  split; [exact splitLines_cases|]. split.
  - intros change. rewrite splitLines_cases.
    destruct (endsWithNewline (value change)) eqn:E.
    + apply last_piece_empty. exact E.
    + apply Forall_forall. intros line Hin. apply filter_In in Hin.
      destruct Hin as (_ & Hne). unfold nonEmpty in Hne.
      apply negb_true_iff, String.eqb_neq in Hne. exact Hne.
  - intros A. unfold buildDiff, emptyRowsFor. rewrite !countEmpty_emission.
    destruct ((A =? "")%string || endsWithNewline A) eqn:E.
    + destruct (diffLines_append_closed A E) as (-> & ->).
      rewrite !emptyOfRole_after_common by discriminate.
      repeat split.
    + destruct (diffLines_append_open A E)
        as (t & Hne & Hsplit & tokens & -> & ->).
      rewrite !emptyOfRole_after_common by discriminate.
      rewrite !emission_cons.
      rewrite !(splitLines_closed_token _ t Hsplit).
      rewrite !(splitLines_open_token _ t Hne Hsplit).
      unfold emptyOfRole. simpl.
      apply String.eqb_neq in Hne. rewrite Hne. repeat split.
Qed.

(** ** Claims about the version resolver and the effect *)

Lemma find_index_none (wanted : Z) (history : list ArtifactContent.t) :
  (forall c, In c history -> ArtifactContent.index c <> wanted) ->
  find (indexIs (Some wanted)) history = None.
Proof.
  induction history as [|c history IH]; intros H; [reflexivity|].
  simpl. destruct (Z.eqb_spec (ArtifactContent.index c) wanted) as [E|_].
  - exfalso. apply (H c); [now left | exact E].
  - apply IH. intros c' Hin. apply H. now right.
Qed.

Lemma find_index_unique (history : list ArtifactContent.t) (c : ArtifactContent.t) :
  NoDup (map ArtifactContent.index history) ->
  In c history ->
  find (indexIs (Some (ArtifactContent.index c))) history = Some c.
Proof.
  induction history as [|c' history IH]; intros Hnd Hin; [contradiction|].
  simpl in Hnd. apply NoDup_cons_iff in Hnd. destruct Hnd as (Hnotin & Hnd).
  simpl. destruct Hin as [->|Hin].
  - now rewrite Z.eqb_refl.
  - destruct (Z.eqb_spec (ArtifactContent.index c') (ArtifactContent.index c))
      as [E|_]; [|now apply IH].
    exfalso. apply Hnotin. rewrite E. now apply in_map.
Qed.

Lemma selected_has_diffId (inp : Inputs) (d : ArtifactDiffInfo) (art : Artifact) :
  selected inp = Some (d, art) -> noDiffId inp = false.
Proof.
  unfold selected, noDiffId. destruct (diffId inp) as [wanted|]; [|discriminate].
  destruct (artifact inp); [|discriminate].
  destruct (wanted =? "")%string; [discriminate | reflexivity].
Qed.

Lemma effect_selected (diffLines : string -> string -> Completion (list Change))
      (inp : Inputs) (st : PanelState) (d : ArtifactDiffInfo) (art : Artifact) :
  selected inp = Some (d, art) ->
  effect diffLines inp st = showDiff diffLines d art st.
Proof.
  intros H. unfold effect. rewrite (selected_has_diffId inp d art H), H.
  reflexivity.
Qed.

(** C5: for every history with distinct indices and every descriptor whose
    [artifactIndex] is the index of an entry [current], the resolver returns
    the body of [current] as the new text; the old text is empty when
    [changeType] is create, whatever [previousIndex] is; when it is update,
    the old text is the body of the entry with index [previousIndex] if that
    entry has the type of [current], and empty if it has the other type or if
    there is no such entry. *)
Theorem C5_old_text_selection (history : list ArtifactContent.t)
        (d : ArtifactDiffInfo) (current : ArtifactContent.t) :
  NoDup (map ArtifactContent.index history) ->
  In current history ->
  ArtifactContent.index current = artifactIndex d ->
  exists r,
    resolve history d = Some r
    /\ newText r = ArtifactContent.body current
    /\ match changeType d with
       | create => oldText r = EmptyString
       | update =>
           (forall previous,
               In previous history ->
               previousIndex d = Some (ArtifactContent.index previous) ->
               oldText r
               = if ContentType_eqb (ArtifactContent.type previous)
                                    (ArtifactContent.type current)
                 then ArtifactContent.body previous else EmptyString)
           /\ ((forall previous,
                   In previous history ->
                   previousIndex d <> Some (ArtifactContent.index previous)) ->
               oldText r = EmptyString)
       end.
Proof.
  intros Hnd Hin Hidx. unfold resolve.
  rewrite <- Hidx, (find_index_unique history current Hnd Hin).
  eexists. split; [reflexivity|]. split.
  - destruct current; reflexivity.
  - destruct (changeType d); [reflexivity|]. split.
    + intros previous Hprev ->.
      rewrite (find_index_unique history previous Hnd Hprev).
      destruct current, previous; reflexivity.
    + intros Hnone. destruct (previousIndex d) as [wanted|].
      * rewrite find_index_none; [destruct current; reflexivity|].
        intros c Hc E. apply (Hnone c Hc). now rewrite E.
      * assert (Hfind : find (indexIs None) history = None).
        { clear. induction history; [reflexivity | assumption]. }
        rewrite Hfind. destruct current; reflexivity.
Qed.

Lemma C5_old_text_selection_witness :
  exists r,
    resolve sampleHistory sampleUpdate = Some r
    /\ newText r = "beta"%string
    /\ (forall previous,
           In previous sampleHistory ->
           Some 1%Z = Some (ArtifactContent.index previous) ->
           oldText r
           = if ContentType_eqb (ArtifactContent.type previous) text
             then ArtifactContent.body previous else EmptyString)
       /\ ((forall previous,
               In previous sampleHistory ->
               Some 1%Z <> Some (ArtifactContent.index previous)) ->
           oldText r = EmptyString).
Proof.
  apply (C5_old_text_selection sampleHistory sampleUpdate
           (ArtifactContent.ArtifactMarkdownV3 2 "Notes" "beta")).
  - simpl. repeat constructor; simpl; intuition discriminate.
  - simpl. auto.
  - reflexivity.
Defined.

(** C6: when no entry of the history has the index [artifactIndex] of the
    selected descriptor, the resolver finds nothing, and the effect only
    records the descriptor: whatever the line diff would return or throw, the
    files, the statistics and the [open] flag stay as they were, so no diff
    is computed and no result is produced. *)
Theorem C6_missing_version (inp : Inputs) (st : PanelState)
        (d : ArtifactDiffInfo) (art : Artifact) :
  selected inp = Some (d, art) ->
  (forall c, In c (contents art) -> ArtifactContent.index c <> artifactIndex d) ->
  resolve (contents art) d = None
  /\ forall diffLines,
      effect diffLines inp st = setDiffInfo (Some d) st
      /\ diffFiles (effect diffLines inp st) = diffFiles st
      /\ stats (effect diffLines inp st) = stats st
      /\ open (effect diffLines inp st) = open st.
Proof.
  intros Hsel Hnone.
  assert (Hres : resolve (contents art) d = None).
  { unfold resolve. now rewrite find_index_none. }
  split; [exact Hres|]. intros diffLines.
  rewrite (effect_selected diffLines inp st d art Hsel).
  unfold showDiff. rewrite Hres. repeat split.
Qed.

Lemma C6_missing_version_witness :
  resolve sampleHistory sampleMissing = None
  /\ forall diffLines,
      effect diffLines (sampleInputs sampleMissing) sampleState
      = setDiffInfo (Some sampleMissing) sampleState
      /\ diffFiles (effect diffLines (sampleInputs sampleMissing) sampleState)
         = diffFiles sampleState
      /\ stats (effect diffLines (sampleInputs sampleMissing) sampleState)
         = stats sampleState
      /\ open (effect diffLines (sampleInputs sampleMissing) sampleState)
         = open sampleState.
Proof.
  apply (C6_missing_version (sampleInputs sampleMissing) sampleState
           sampleMissing (mkArtifact sampleHistory)).
  - reflexivity.
  - simpl. intros c [<-|[<-|[]]]; discriminate.
Defined.

(** C9: when the line diff throws on the two resolved texts, the error is
    reported on the console and the files (the last hunks), the statistics
    and the [open] flag are exactly what they were before: nothing of the
    previous result is updated. *)
Theorem C9_failed_diff_keeps_state
        (diffLines : string -> string -> Completion (list Change))
        (inp : Inputs) (st : PanelState) (d : ArtifactDiffInfo) (art : Artifact)
        (r : Resolved) (error : string) :
  selected inp = Some (d, art) ->
  resolve (contents art) d = Some r ->
  diffLines (oldText r) (newText r) = Throw error ->
  diffFiles (effect diffLines inp st) = diffFiles st
  /\ stats (effect diffLines inp st) = stats st
  /\ open (effect diffLines inp st) = open st
  /\ console (effect diffLines inp st)
     = console st ++ [("Error generating diff:"%string, error)].
Proof.
  intros Hsel Hres Hthrow.
  rewrite (effect_selected diffLines inp st d art Hsel).
  unfold showDiff, tryDiff. rewrite Hres. simpl. rewrite Hthrow.
  repeat split.
Qed.

Lemma C9_failed_diff_keeps_state_witness :
  diffFiles (effect failingDiff (sampleInputs sampleUpdate) sampleState)
  = diffFiles sampleState
  /\ stats (effect failingDiff (sampleInputs sampleUpdate) sampleState)
     = stats sampleState
  /\ open (effect failingDiff (sampleInputs sampleUpdate) sampleState)
     = open sampleState
  /\ console (effect failingDiff (sampleInputs sampleUpdate) sampleState)
     = console sampleState
       ++ [("Error generating diff:"%string, "out of memory"%string)].
Proof.
  apply (C9_failed_diff_keeps_state failingDiff (sampleInputs sampleUpdate)
           sampleState sampleUpdate (mkArtifact sampleHistory)
           (mkResolved "alpha" "beta" "Notes") "out of memory").
  - reflexivity.
  - reflexivity.
  - reflexivity.
Defined.

(** ** Further properties of the hunk builder *)

Lemma pushes_match_role (st : Locals) (line : string) :
  Forall (fun c => numbersMatchRole c = true) (hunkChanges st) ->
  Forall (fun c => numbersMatchRole c = true) (hunkChanges (pushInsert st line))
  /\ Forall (fun c => numbersMatchRole c = true) (hunkChanges (pushDelete st line))
  /\ Forall (fun c => numbersMatchRole c = true) (hunkChanges (pushNormal st line)).
Proof.
  intros H. repeat split; simpl; apply Forall_app; split; trivial;
    repeat constructor.
Qed.

Lemma visitChange_match_role (st : Locals) (change : Change) :
  Forall (fun c => numbersMatchRole c = true) (hunkChanges st) ->
  Forall (fun c => numbersMatchRole c = true) (hunkChanges (visitChange st change)).
Proof.
  intros H. unfold visitChange.
  destruct (added change); [|destruct (removed change)];
    apply (fold_left_preserves _ _
             (fun st => Forall (fun c => numbersMatchRole c = true) (hunkChanges st)));
    trivial; intros a b Ha; apply (pushes_match_role a b Ha).
Qed.

(** X1: in every result, an inserted row carries a new line number and no
    old one, a deleted row an old line number and no new one, and an
    unchanged row both. *)
Theorem rows_carry_the_numbers_of_their_role (changes : list Change) :
  Forall (fun c => numbersMatchRole c = true) (allChanges (buildHunks changes)).
Proof.
  rewrite allChanges_buildHunks. unfold walk.
  apply (fold_left_preserves _ _
           (fun st => Forall (fun c => numbersMatchRole c = true) (hunkChanges st))).
  - intros a b. apply visitChange_match_role.
  - constructor.
Qed.

(** X2: in every hunk the old line numbers of the rows are exactly
    1, 2, ..., [oldLines] in this order, and the new line numbers exactly
    1, 2, ..., [newLines]: no number is skipped or used twice. *)
Theorem line_numbers_have_no_gap (changes : list Change) :
  Forall (fun h => oldNumbers (Hunk.changes h) = seq 1 (Hunk.oldLines h)
                   /\ newNumbers (Hunk.changes h) = seq 1 (Hunk.newLines h))
         (DiffResult.hunks (buildHunks changes)).
Proof.
  simpl. unfold assemble.
  destruct (0 <? List.length (hunkChanges (walk changes)))%nat; constructor.
  - simpl. destruct (walk_consistent changes) as (Ho & Hn & _). now split.
  - constructor.
Qed.

Lemma countType_total (rows : list HunkChange.t) :
  List.length rows
  = countType insert rows + countType delete rows + countType normal rows.
Proof.
  induction rows as [|c rows IH]; [reflexivity|].
  unfold countType in *. simpl.
  destruct (HunkChange.type c); simpl; lia.
Qed.

(** X3: in every hunk, [oldLines] is the number of deletions plus the
    number of unchanged rows, [newLines] the number of additions plus the
    number of unchanged rows, and the hunk has as many rows as additions,
    deletions and unchanged rows together. *)
Theorem hunk_counts_balance (changes : list Change) :
  Forall (fun h =>
            Hunk.oldLines h
            = DiffResult.deletions (buildHunks changes)
              + countType normal (Hunk.changes h)
            /\ Hunk.newLines h
               = DiffResult.additions (buildHunks changes)
                 + countType normal (Hunk.changes h)
            /\ List.length (Hunk.changes h)
               = DiffResult.additions (buildHunks changes)
                 + DiffResult.deletions (buildHunks changes)
                 + countType normal (Hunk.changes h))
         (DiffResult.hunks (buildHunks changes)).
Proof.
  simpl. unfold assemble.
  destruct (0 <? List.length (hunkChanges (walk changes)))%nat; constructor.
  - simpl. rewrite countType_total.
    destruct (walk_consistent changes) as (_ & _ & Hol & Hnl & Ha & Hd). lia.
  - constructor.
Qed.

Lemma splitNewline_no_LF (s : string) :
  Forall (fun piece => hasLF piece = false) (splitNewline s).
Proof.
  induction s as [|c s IH]; simpl; [repeat constructor|].
  destruct (isLF c) eqn:Ec; [constructor; [reflexivity | exact IH]|].
  destruct (splitNewline s) as [|piece pieces]; [repeat constructor; simpl; now rewrite Ec|].
  apply Forall_cons_iff in IH. destruct IH as (Hp & Hps).
  constructor; [simpl; now rewrite Ec, Hp | exact Hps].
Qed.

Lemma rows_from_emission (P : ChangeType * string -> Prop) (changes : list Change) :
  Forall P (emission changes) ->
  Forall (fun c => P (rowOf c)) (allChanges (buildHunks changes)).
Proof.
  rewrite allChanges_buildHunks, <- rows_walk, Forall_map. trivial.
Qed.

Lemma emission_lines (P : string -> Prop) (changes : list Change) :
  (forall change, Forall P (splitLines change)) ->
  Forall (fun row => P (snd row)) (emission changes).
Proof.
  intros H. apply Forall_forall. intros row Hin.
  apply in_flat_map in Hin. destruct Hin as (change & _ & Hin).
  apply in_map_iff in Hin. destruct Hin as (line & <- & Hline).
  pose proof (H change) as HP. rewrite Forall_forall in HP. now apply HP.
Qed.

(** X4: no row of a result contains a line terminator in its text. *)
Theorem rows_hold_single_lines (changes : list Change) :
  Forall (fun c => hasLF (HunkChange.content c) = false)
         (allChanges (buildHunks changes)).
Proof.
  apply (rows_from_emission (fun row => hasLF (snd row) = false)).
  apply (emission_lines (fun line => hasLF line = false)).
  intros change. apply Forall_forall.
  intros line Hin. apply filter_In in Hin. destruct Hin as (Hin & _).
  pose proof (splitNewline_no_LF (value change)) as H.
  rewrite Forall_forall in H. now apply H.
Qed.

Lemma emission_nil_iff (changes : list Change) :
  emission changes = [] <-> Forall (fun change => value change = EmptyString) changes.
Proof.
  induction changes as [|change changes IH]; [split; constructor|].
  rewrite emission_cons. split.
  - intros H. apply app_eq_nil in H. destruct H as (H1 & H2).
    constructor; [|now apply IH].
    apply splitLines_nil_iff. now destruct (splitLines change).
  - intros H. apply Forall_cons_iff in H. destruct H as (H1 & H2).
    apply splitLines_nil_iff in H1. rewrite H1. simpl. now apply IH.
Qed.

(** X5: a result has no hunk exactly when every segment has an empty text;
    any segment with some text, changed or not, gives a hunk. *)
Theorem no_hunk_iff_no_text (changes : list Change) :
  DiffResult.hunks (buildHunks changes) = []
  <-> Forall (fun change => value change = EmptyString) changes.
Proof.
  rewrite <- emission_nil_iff.
  destruct (buildHunks_assembled changes) as (_ & _ & _ & ->).
  destruct (emission changes); split; intros H; try reflexivity; discriminate H.
Qed.

Lemma mirror_fold (push push' : Locals -> string -> Locals) :
  (forall st line, push' (mirrorLocals st) line = mirrorLocals (push st line)) ->
  forall lines st,
    fold_left push' lines (mirrorLocals st) = mirrorLocals (fold_left push lines st).
Proof.
  intros H lines; induction lines as [|line lines IH]; intros st; simpl.
  - reflexivity.
  - now rewrite H, IH.
Qed.

Lemma mirror_push (st : Locals) (line : string) :
  pushDelete (mirrorLocals st) line = mirrorLocals (pushInsert st line)
  /\ pushInsert (mirrorLocals st) line = mirrorLocals (pushDelete st line)
  /\ pushNormal (mirrorLocals st) line = mirrorLocals (pushNormal st line).
Proof.
  unfold mirrorLocals, pushInsert, pushDelete, pushNormal. simpl.
  rewrite !map_app. repeat split.
Qed.

Lemma mirror_visitChange (st : Locals) (change : Change) :
  oneSided change = true ->
  visitChange (mirrorLocals st) (mirrorChange change)
  = mirrorLocals (visitChange st change).
Proof.
  unfold oneSided, visitChange, mirrorChange, splitLines. simpl.
  destruct (added change), (removed change); intros H; try discriminate H;
    apply mirror_fold; intros st' line; apply mirror_push.
Qed.

Lemma mirror_fold_visitChange (changes : list Change) :
  Forall (fun change => oneSided change = true) changes ->
  forall st,
    fold_left visitChange (map mirrorChange changes) (mirrorLocals st)
    = mirrorLocals (fold_left visitChange changes st).
Proof.
  induction 1 as [|change changes Hc _ IH]; intros st; simpl; [reflexivity|].
  now rewrite mirror_visitChange, IH.
Qed.

Lemma buildHunks_mirror (changes : list Change) :
  Forall (fun change => oneSided change = true) changes ->
  buildHunks (map mirrorChange changes) = mirrorResult (buildHunks changes).
Proof.
  intros H. unfold buildHunks, walk.
  change initially with (mirrorLocals initially) at 1 2 3.
  rewrite (mirror_fold_visitChange changes H).
  unfold mirrorResult, assemble. simpl. rewrite length_map.
  destruct (0 <? List.length (hunkChanges (fold_left visitChange changes initially)))%nat;
    reflexivity.
Qed.

(** X6: the builder treats the two sides alike.  When no segment is flagged
    both added and removed, exchanging the two flags of every segment
    exchanges additions and deletions, old and new line numbers, inserted and
    deleted rows, and the two counts of the hunk, and changes nothing else. *)
Theorem exchanging_sides_mirrors_the_result (changes : list Change) :
  Forall (fun change => oneSided change = true) changes ->
  buildHunks (map mirrorChange changes) = mirrorResult (buildHunks changes).
Proof. exact (buildHunks_mirror changes). Qed.

Lemma exchanging_sides_mirrors_the_result_witness :
  buildHunks (map mirrorChange sampleChanges)
  = mirrorResult (buildHunks sampleChanges).
Proof.
  apply (exchanging_sides_mirrors_the_result sampleChanges).
  repeat constructor.
Defined.

Lemma graft_push (pre : list HunkChange.t) (a b x y : nat) (st0 : Locals)
      (line : string) :
  pushInsert (graft pre a b x y st0) line = graft pre a b x y (pushInsert st0 line)
  /\ pushDelete (graft pre a b x y st0) line = graft pre a b x y (pushDelete st0 line)
  /\ pushNormal (graft pre a b x y st0) line = graft pre a b x y (pushNormal st0 line).
Proof.
  unfold graft, pushInsert, pushDelete, pushNormal. simpl.
  rewrite !map_app, !app_assoc, <- !plus_n_Sm. repeat split.
Qed.

Lemma graft_fold (push : Locals -> string -> Locals)
      (pre : list HunkChange.t) (a b x y : nat) :
  (forall st0 line,
      push (graft pre a b x y st0) line = graft pre a b x y (push st0 line)) ->
  forall lines st0,
    fold_left push lines (graft pre a b x y st0)
    = graft pre a b x y (fold_left push lines st0).
Proof.
  intros H lines; induction lines as [|line lines IH]; intros st0; simpl.
  - reflexivity.
  - now rewrite H, IH.
Qed.

Lemma graft_visitChange (pre : list HunkChange.t) (a b x y : nat) (st0 : Locals)
      (change : Change) :
  visitChange (graft pre a b x y st0) change
  = graft pre a b x y (visitChange st0 change).
Proof.
  unfold visitChange.
  destruct (added change); [|destruct (removed change)];
    apply graft_fold; intros st line; apply graft_push.
Qed.

Lemma graft_fold_visitChange (pre : list HunkChange.t) (a b x y : nat)
      (changes : list Change) : forall st0,
  fold_left visitChange changes (graft pre a b x y st0)
  = graft pre a b x y (fold_left visitChange changes st0).
Proof.
  induction changes as [|change changes IH]; intros st0; simpl; [reflexivity|].
  now rewrite graft_visitChange, IH.
Qed.

Lemma graft_initially (st : Locals) :
  1 <= oldLineNumber st -> 1 <= newLineNumber st ->
  graft (hunkChanges st) (oldLineNumber st - 1) (newLineNumber st - 1)
        (additions st) (deletions st) initially = st.
Proof.
  intros Ho Hn. destruct st as [rows o n a d]. unfold graft. simpl in *.
  rewrite app_nil_r. f_equal; lia.
Qed.

(** X7: segments handed over after others add their rows after the rows
    of the others, numbered on from the last old and new line numbers
    reached, and their additions and deletions add up. *)
Theorem later_segments_continue_the_numbering (first second : list Change) :
  allChanges (buildHunks (first ++ second))
  = allChanges (buildHunks first)
    ++ map (shiftRow (List.length (oldNumbers (allChanges (buildHunks first))))
                     (List.length (newNumbers (allChanges (buildHunks first)))))
           (allChanges (buildHunks second))
  /\ DiffResult.additions (buildHunks (first ++ second))
     = DiffResult.additions (buildHunks first)
       + DiffResult.additions (buildHunks second)
  /\ DiffResult.deletions (buildHunks (first ++ second))
     = DiffResult.deletions (buildHunks first)
       + DiffResult.deletions (buildHunks second).
Proof.
  rewrite !allChanges_buildHunks. simpl.
  destruct (walk_consistent first) as (Ho & Hn & Hol & Hnl & _).
  rewrite Ho, Hn, !length_seq.
  assert (E : walk (first ++ second)
              = graft (hunkChanges (walk first)) (oldLineNumber (walk first) - 1)
                      (newLineNumber (walk first) - 1) (additions (walk first))
                      (deletions (walk first)) (walk second)).
  { unfold walk at 1. rewrite fold_left_app. fold (walk first).
    rewrite <- (graft_initially (walk first)) at 1 by lia.
    apply graft_fold_visitChange. }
  rewrite E. repeat split.
Qed.

(** ** Splitting and joining *)

(** X8: joining the pieces of [value.split('\n')] with the terminator gives
    the text back: the split itself loses nothing. *)
Theorem joining_the_pieces_restores_the_text (s : string) :
  String.concat NL (splitNewline s) = s.
Proof.
  induction s as [|c s IH]; [reflexivity|].
  cbn [splitNewline].
  destruct (splitNewline s) as [|piece pieces] eqn:E.
  { now apply splitNewline_not_nil in E. }
  destruct (isLF c) eqn:Ec.
  - apply Ascii.eqb_eq in Ec. subst c.
    change (String.concat NL (EmptyString :: piece :: pieces))
      with (String LF (String.concat NL (piece :: pieces))).
    now rewrite IH.
  - destruct pieces as [|piece' pieces].
    + simpl in *. now rewrite IH.
    + change (String.concat NL (String c piece :: piece' :: pieces))
        with (String c (String.concat NL (piece :: piece' :: pieces))).
      now rewrite IH.
Qed.

Lemma splitNewline_single (piece : string) :
  hasLF piece = false -> splitNewline piece = [piece].
Proof.
  induction piece as [|c piece IH]; [reflexivity|].
  simpl. intros H. apply orb_false_iff in H. destruct H as (Hc & Hp).
  now rewrite Hc, (IH Hp).
Qed.

Lemma splitNewline_first (piece rest : string) :
  hasLF piece = false ->
  splitNewline (piece ++ NL ++ rest) = piece :: splitNewline rest.
Proof.
  induction piece as [|c piece IH]; [reflexivity|].
  simpl. intros H. apply orb_false_iff in H. destruct H as (Hc & Hp).
  rewrite Hc. change (String LF rest) with (NL ++ rest)%string.
  now rewrite (IH Hp).
Qed.

(** X9: splitting the join of a non-empty list of lines, none of which
    contains a terminator, gives the lines back. *)
Theorem splitting_the_join_restores_the_lines (lines : list string) :
  lines <> [] ->
  Forall (fun line => hasLF line = false) lines ->
  splitNewline (String.concat NL lines) = lines.
Proof.
  intros Hne H. induction H as [|line lines Hline Hlines IH]; [contradiction|].
  destruct lines as [|line' lines].
  - simpl. now apply splitNewline_single.
  - change (String.concat NL (line :: line' :: lines))
      with (line ++ NL ++ String.concat NL (line' :: lines))%string.
    rewrite splitNewline_first by exact Hline.
    rewrite IH; [reflexivity | discriminate].
Qed.

Lemma splitting_the_join_restores_the_lines_witness :
  splitNewline (String.concat NL ["a"; ""; "b"]%string) = ["a"; ""; "b"]%string.
Proof.
  apply (splitting_the_join_restores_the_lines ["a"; ""; "b"]%string).
  - discriminate.
  - repeat constructor.
Defined.

Lemma filter_all_in (A : Type) (f : A -> bool) (l : list A) :
  Forall (fun a => f a = true) l -> filter f l = l.
Proof.
  induction 1 as [|a l Ha _ IH]; [reflexivity|].
  simpl. now rewrite Ha, IH.
Qed.

Lemma filter_idempotent (A : Type) (f : A -> bool) (l : list A) :
  filter f (filter f l) = filter f l.
Proof.
  induction l as [|a l IH]; [reflexivity|].
  simpl. destruct (f a) eqn:E; simpl; [now rewrite E, IH | exact IH].
Qed.

Lemma splitLines_keep_text (change : Change) :
  filter nonEmpty (splitLines change)
  = filter nonEmpty (splitNewline (value change)).
Proof.
  rewrite splitLines_cases. destruct (endsWithNewline (value change));
    [reflexivity | apply filter_idempotent].
Qed.

Lemma contents_from_emission (changes : list Change) :
  map HunkChange.content (allChanges (buildHunks changes))
  = map snd (emission changes).
Proof.
  rewrite allChanges_buildHunks, <- rows_walk, map_map. reflexivity.
Qed.

(** X10: no line with text is ever dropped or moved: the non-empty texts of
    the rows of a result are the non-empty pieces of the segments, in the
    order of the segments. *)
Theorem lines_with_text_are_all_shown (changes : list Change) :
  filter nonEmpty (map HunkChange.content (allChanges (buildHunks changes)))
  = flat_map (fun change => filter nonEmpty (splitNewline (value change))) changes.
Proof.
  rewrite contents_from_emission.
  induction changes as [|change changes IH]; [reflexivity|].
  rewrite emission_cons, map_app, filter_app, IH, map_map. simpl.
  rewrite map_id, splitLines_keep_text. reflexivity.
Qed.

(** ** Further properties of the version resolver *)

(** X11: the resolver finds nothing exactly when no entry of the history
    has the index [artifactIndex]; neither [changeType] nor [previousIndex]
    can make it fail. *)
Theorem not_found_iff_no_such_index (history : list ArtifactContent.t)
        (d : ArtifactDiffInfo) :
  resolve history d = None
  <-> (forall c, In c history -> ArtifactContent.index c <> artifactIndex d).
Proof.
  split.
  - unfold resolve. intros H c Hin E.
    destruct (find (indexIs (Some (artifactIndex d))) history) eqn:F;
      [discriminate H|].
    apply (find_none _ _ F) in Hin. unfold indexIs in Hin.
    rewrite E, Z.eqb_refl in Hin. discriminate Hin.
  - intros H. unfold resolve. now rewrite find_index_none.
Qed.

Lemma indexIs_true (wanted : option Z) (c : ArtifactContent.t) :
  indexIs wanted c = true -> wanted = Some (ArtifactContent.index c).
Proof.
  destruct wanted as [i|]; simpl; [|discriminate].
  intros H. apply Z.eqb_eq in H. now rewrite H.
Qed.

(** X12: whatever the history (indices may even repeat), the texts of a
    resolved comparison come from it: the new text is the body of an entry
    with index [artifactIndex], the file name is its title, or ["Untitled"]
    for an empty title, and is never empty, and the old text is either empty
    or, for an update, the body of an entry with index [previousIndex] and
    of the same type. *)
Theorem resolved_texts_come_from_the_history (history : list ArtifactContent.t)
        (d : ArtifactDiffInfo) (r : Resolved) :
  resolve history d = Some r ->
  exists current,
    In current history
    /\ ArtifactContent.index current = artifactIndex d
    /\ newText r = ArtifactContent.body current
    /\ fileName r <> EmptyString
    /\ fileName r = (if (ArtifactContent.title current =? "")%string
                     then "Untitled"%string else ArtifactContent.title current)
    /\ (oldText r = EmptyString
        \/ (changeType d = update
            /\ exists previous,
                In previous history
                /\ previousIndex d = Some (ArtifactContent.index previous)
                /\ ArtifactContent.type previous = ArtifactContent.type current
                /\ oldText r = ArtifactContent.body previous)).
Proof.
  unfold resolve.
  destruct (find (indexIs (Some (artifactIndex d))) history) as [current|] eqn:F;
    [|discriminate].
  intros [= <-]. apply find_some in F. destruct F as (Hin & Hidx).
  apply indexIs_true in Hidx. injection Hidx as Hidx.
  exists current. simpl.
  split; [exact Hin|]. split; [symmetry; exact Hidx|].
  split; [destruct current; reflexivity|].
  split; [|split; [reflexivity|]].
  - destruct (String.eqb_spec (ArtifactContent.title current) "");
      [discriminate | assumption].
  - destruct (changeType d); [now left|].
    destruct (find (indexIs (previousIndex d)) history) as [previous|] eqn:G.
    + apply find_some in G. destruct G as (Hp & Hpi). apply indexIs_true in Hpi.
      destruct current, previous; simpl; try (now left);
        right; (split; [reflexivity|]); eexists; repeat split; eauto.
    + left. destruct current; reflexivity.
Qed.

Lemma resolved_texts_come_from_the_history_witness :
  exists current,
    In current sampleHistory
    /\ ArtifactContent.index current = 2%Z
    /\ "beta"%string = ArtifactContent.body current
    /\ "Notes"%string <> EmptyString
    /\ "Notes"%string = (if (ArtifactContent.title current =? "")%string
                         then "Untitled"%string else ArtifactContent.title current)
    /\ ("alpha"%string = EmptyString
        \/ (update = update
            /\ exists previous,
                In previous sampleHistory
                /\ Some 1%Z = Some (ArtifactContent.index previous)
                /\ ArtifactContent.type previous = ArtifactContent.type current
                /\ "alpha"%string = ArtifactContent.body previous)).
Proof.
  apply (resolved_texts_come_from_the_history sampleHistory sampleUpdate
           (mkResolved "alpha" "beta" "Notes")).
  reflexivity.
Defined.

Lemma resolve_self_texts (history : list ArtifactContent.t)
        (d : ArtifactDiffInfo) (r : Resolved) :
  changeType d = update ->
  previousIndex d = Some (artifactIndex d) ->
  resolve history d = Some r ->
  oldText r = newText r.
Proof.
  unfold resolve. intros -> ->.
  destruct (find (indexIs (Some (artifactIndex d))) history) as [current|];
    [|discriminate].
  intros [= <-]. destruct current; reflexivity.
Qed.

(** X13: an update whose [previousIndex] is its own [artifactIndex]
    compares the version with itself: the old text is the new text. *)
Theorem version_against_itself (history : list ArtifactContent.t)
        (d : ArtifactDiffInfo) (r : Resolved) :
  changeType d = update ->
  previousIndex d = Some (artifactIndex d) ->
  resolve history d = Some r ->
  oldText r = newText r.
Proof. exact (resolve_self_texts history d r). Qed.

Lemma version_against_itself_witness :
  oldText (mkResolved "beta" "beta" "Notes")
  = newText (mkResolved "beta" "beta" "Notes").
Proof.
  apply (version_against_itself sampleHistory sampleSelf); reflexivity.
Defined.

(** ** Further properties of the effect, the close button and the render *)

Lemma resolve_fileName (history : list ArtifactContent.t) (d : ArtifactDiffInfo)
      (r : Resolved) :
  resolve history d = Some r -> fileName r <> EmptyString.
Proof.
  unfold resolve.
  destruct (find (indexIs (Some (artifactIndex d))) history) as [current|];
    [|discriminate].
  intros [= <-]. simpl.
  destruct (String.eqb_spec (ArtifactContent.title current) "");
    [discriminate | assumption].
Qed.

Lemma assemble_length (st : Locals) : List.length (assemble st) <= 1.
Proof.
  unfold assemble. destruct (0 <? List.length (hunkChanges st))%nat; simpl; lia.
Qed.

Lemma coherent_showDiff (diffLines : string -> string -> Completion (list Change))
      (d : ArtifactDiffInfo) (art : Artifact) (st : PanelState) :
  coherent st -> coherent (showDiff diffLines d art st).
Proof.
  intros H. unfold showDiff.
  destruct (resolve (contents art) d) as [r|] eqn:R; [|exact H].
  unfold tryDiff. destruct (diffLines (oldText r) (newText r)) as [changes|error];
    [|exact H].
  unfold coherent. simpl. split; [apply assemble_length|].
  split; [reflexivity|]. split; [exact (resolve_fileName _ _ _ R)|].
  apply (buildHunks_counted changes).
Qed.

Lemma coherent_step (diffLines : string -> string -> Completion (list Change))
      (st : PanelState) (event : Event) :
  coherent st -> coherent (step diffLines st event).
Proof.
  intros H. destruct event as [inp|inp|opened]; simpl.
  - unfold effect. destruct (noDiffId inp && open st); [exact I|].
    destruct (selected inp) as [[d art]|]; [|exact H].
    now apply coherent_showDiff.
  - exact I.
  - exact H.
Qed.

(** X14: from the mount on, through any sequence of effect runs, clicks on
    the close button and changes of [open] by the parent, and for any line
    diff (it may throw), the panel holds at most one file; that file has at
    most one hunk and one non-empty path, and the two counters are the
    numbers of its inserted and deleted rows. *)
Theorem displayed_state_stays_coherent
        (diffLines : string -> string -> Completion (list Change))
        (events : list Event) (opened : bool) :
  coherent (run diffLines events (mounted opened)).
Proof.
  unfold run. apply fold_left_preserves.
  - intros st event. apply coherent_step.
  - exact I.
Qed.

Lemma coherent_soundView (st : PanelState) : coherent st -> soundView (render st).
Proof.
  unfold coherent, render, soundView. intros H.
  destruct (open st); [|exact I]. simpl.
  destruct (diffFiles st) as [|file [|file' files]]; simpl.
  - destruct (diffInfo st) as [d|]; [destruct (changeType d)|]; exact I.
  - destruct H as (Hlen & _ & Hpath & Ha & Hd).
    eexists. split; [reflexivity|]. unfold soundCard, cardRows. simpl.
    rewrite length_map, flat_map_concat_map, map_map, <- flat_map_concat_map.
    repeat split; assumption.
  - contradiction.
Qed.

(** X15: whatever happened since the mount, when the render shows files it
    shows exactly one card, with key 0, at most one hunk (so no two hunks
    share a key), a non-empty path, and [+additions] and [-deletions] equal
    to the numbers of inserted and deleted rows of the hunks below them. *)
Theorem a_shown_file_is_alone_and_counted
        (diffLines : string -> string -> Completion (list Change))
        (events : list Event) (opened : bool) :
  soundView (render (run diffLines events (mounted opened))).
Proof.
  apply coherent_soundView. unfold run. apply fold_left_preserves.
  - intros st event. apply coherent_step.
  - exact I.
Qed.

Lemma noDiffId_selected (inp : Inputs) : noDiffId inp = true -> selected inp = None.
Proof.
  unfold noDiffId, selected. destruct (diffId inp) as [wanted|]; [|reflexivity].
  intros ->. now destruct (artifact inp).
Qed.

Lemma effect_close (diffLines : string -> string -> Completion (list Change))
      (inp : Inputs) (st : PanelState) :
  noDiffId inp && open st = true ->
  effect diffLines inp st = setDiffFiles [] (setDiffInfo None (setOpen false st)).
Proof. intros H. unfold effect. now rewrite H. Qed.

Lemma effect_idle (diffLines : string -> string -> Completion (list Change))
      (inp : Inputs) (st : PanelState) :
  noDiffId inp && open st = false -> selected inp = None ->
  effect diffLines inp st = st.
Proof. intros H S. unfold effect. now rewrite H, S. Qed.

Lemma sameDisplay_refl (st : PanelState) : sameDisplay st st.
Proof. repeat split. Qed.

Lemma showDiff_twice (diffLines : string -> string -> Completion (list Change))
      (d : ArtifactDiffInfo) (art : Artifact) (st : PanelState) :
  sameDisplay (showDiff diffLines d art (showDiff diffLines d art st))
              (showDiff diffLines d art st)
  /\ ((forall oldText newText error, diffLines oldText newText <> Throw error) ->
      showDiff diffLines d art (showDiff diffLines d art st)
      = showDiff diffLines d art st).
Proof.
  unfold showDiff. destruct (resolve (contents art) d) as [r|].
  - unfold tryDiff.
    destruct (diffLines (oldText r) (newText r)) as [changes|error] eqn:E.
    + split; [repeat split | reflexivity].
    + split; [repeat split|]. intros H. now apply H in E.
  - split; [repeat split | reflexivity].
Qed.

(** X16: running the effect a second time on the same inputs changes
    nothing a render reads ([open], the descriptor, the files and the
    counters); with a line diff that does not throw the whole state is the
    same, and only a throwing line diff leaves a second report on the
    console. *)
Theorem effect_is_idempotent
        (diffLines : string -> string -> Completion (list Change))
        (inp : Inputs) (st : PanelState) :
  sameDisplay (effect diffLines inp (effect diffLines inp st))
              (effect diffLines inp st)
  /\ panelEffect inp (panelEffect inp st) = panelEffect inp st.
Proof.
  assert (G : forall dl,
             sameDisplay (effect dl inp (effect dl inp st)) (effect dl inp st)
             /\ ((forall o n e, dl o n <> Throw e) ->
                 effect dl inp (effect dl inp st) = effect dl inp st)).
  { intros dl. destruct (noDiffId inp && open st) eqn:C.
    - rewrite (effect_close dl inp st C).
      apply andb_true_iff in C. destruct C as (C & _).
      rewrite effect_idle;
        [split; [apply sameDisplay_refl | reflexivity]
        | apply andb_false_r | exact (noDiffId_selected inp C)].
    - destruct (selected inp) as [[d art]|] eqn:S.
      + rewrite !(effect_selected dl inp _ d art S). apply showDiff_twice.
      + rewrite !(effect_idle dl inp st C S).
        split; [apply sameDisplay_refl | reflexivity]. }
  split; [apply G|]. apply G. discriminate.
Qed.

(** X17: the close button hides the panel, clears the descriptor and the
    files, and clears the query parameter; the effect this triggers changes
    nothing, so the panel stays closed.  The counters are not reset. *)
Theorem closing_hides_and_stays_hidden
        (diffLines : string -> string -> Completion (list Change))
        (inp : Inputs) (st : PanelState) :
  render (snd (handleClose inp st)) = None
  /\ effect diffLines (fst (handleClose inp st)) (snd (handleClose inp st))
     = snd (handleClose inp st)
  /\ diffInfo (snd (handleClose inp st)) = None
  /\ diffFiles (snd (handleClose inp st)) = []
  /\ stats (snd (handleClose inp st)) = stats st.
Proof. repeat split. Qed.

(** X18: when the version of the selected descriptor is found and the line
    diff returns, the effect replaces what was displayed: [open], the
    descriptor, the file and the counters do not depend on the state before,
    and the render shows the label of the descriptor and exactly one file
    under the resolved name, also for a create descriptor. *)
Theorem a_computed_diff_replaces_the_display
        (diffLines : string -> string -> Completion (list Change))
        (inp : Inputs) (d : ArtifactDiffInfo) (art : Artifact) (r : Resolved)
        (changes : list Change) :
  selected inp = Some (d, art) ->
  resolve (contents art) d = Some r ->
  diffLines (oldText r) (newText r) = Return changes ->
  forall st st',
    sameDisplay (effect diffLines inp st) (effect diffLines inp st')
    /\ exists card,
        render (effect diffLines inp st)
        = Some {| viewLabel := Some (comparisonLabel d);
                  viewBody := ShowsFiles [card] |}
        /\ cardPath card = fileName r
        /\ map snd (cardHunks card) = DiffResult.hunks (buildHunks changes)
        /\ cardAdditions card = DiffResult.additions (buildHunks changes)
        /\ cardDeletions card = DiffResult.deletions (buildHunks changes).
Proof.
  intros Hsel Hres Hret st st'.
  rewrite !(effect_selected diffLines inp _ d art Hsel).
  unfold showDiff, tryDiff. rewrite Hres. simpl. rewrite Hret.
  split; [repeat split|].
  eexists. split; [reflexivity|]. simpl. rewrite map_map, map_id. repeat split.
Qed.

Lemma a_computed_diff_replaces_the_display_witness :
  sameDisplay (effect returningDiff (sampleInputs sampleCreate) sampleState)
              (effect returningDiff (sampleInputs sampleCreate) (mounted false))
  /\ exists card,
      render (effect returningDiff (sampleInputs sampleCreate) sampleState)
      = Some {| viewLabel := Some (comparisonLabel sampleCreate);
                viewBody := ShowsFiles [card] |}
      /\ cardPath card = "Notes"%string
      /\ map snd (cardHunks card)
         = DiffResult.hunks (buildHunks [mkChange "beta" true false])
      /\ cardAdditions card
         = DiffResult.additions (buildHunks [mkChange "beta" true false])
      /\ cardDeletions card
         = DiffResult.deletions (buildHunks [mkChange "beta" true false]).
Proof.
  apply (a_computed_diff_replaces_the_display returningDiff
           (sampleInputs sampleCreate) sampleCreate (mkArtifact sampleHistory)
           (mkResolved "" "beta" "Notes") [mkChange "beta" true false]).
  - reflexivity.
  - reflexivity.
  - reflexivity.
Defined.

(** X19: a query parameter that is the id of no message changes nothing:
    whatever was displayed stays, open or not. *)
Theorem unknown_message_changes_nothing
        (diffLines : string -> string -> Completion (list Change))
        (inp : Inputs) (wanted : string) (st : PanelState) :
  diffId inp = Some wanted ->
  wanted <> EmptyString ->
  (forall message, In message (messages inp) -> Message.id message <> Some wanted) ->
  effect diffLines inp st = st.
Proof.
  intros Hid Hne Hnone. unfold effect, noDiffId, selected. rewrite Hid.
  apply String.eqb_neq in Hne. rewrite Hne. simpl.
  destruct (artifact inp); [|reflexivity].
  destruct (List.length (messages inp) =? 0)%nat; [reflexivity|].
  destruct (find (hasId wanted) (messages inp)) as [message|] eqn:F; [|reflexivity].
  apply find_some in F. destruct F as (Hin & Hhas). exfalso.
  apply (Hnone message Hin). unfold hasId in Hhas.
  destruct (Message.id message) as [s|]; [|discriminate Hhas].
  apply String.eqb_eq in Hhas. now rewrite Hhas.
Qed.

Lemma unknown_message_changes_nothing_witness :
  effect failingDiff
         {| diffId := Some "m2"; messages := [Message.mk (Some "m1") (Some sampleUpdate)];
            artifact := Some (mkArtifact sampleHistory) |} sampleState
  = sampleState.
Proof.
  apply (unknown_message_changes_nothing failingDiff _ "m2" sampleState).
  - reflexivity.
  - discriminate.
  - simpl. intros message [<-|[]]. discriminate.
Defined.



(** X24: the effect never opens an empty panel: when the panel was closed
    and is open after a run, the run has put a descriptor and exactly one
    file on display. *)
Theorem the_effect_opens_only_on_a_file
        (diffLines : string -> string -> Completion (list Change))
        (inp : Inputs) (st : PanelState) :
  open st = false ->
  open (effect diffLines inp st) = true ->
  exists d file,
    diffInfo (effect diffLines inp st) = Some d
    /\ diffFiles (effect diffLines inp st) = [file].
Proof.
  intros Hclosed. unfold effect. rewrite Hclosed, andb_false_r.
  destruct (selected inp) as [[d art]|]; [|congruence].
  unfold showDiff. destruct (resolve (contents art) d) as [r|].
  - unfold tryDiff. destruct (diffLines (oldText r) (newText r)) as [changes|error].
    + intros _. eexists. eexists. split; reflexivity.
    + simpl. congruence.
  - simpl. congruence.
Qed.

Lemma the_effect_opens_only_on_a_file_witness :
  exists d file,
    diffInfo (effect returningDiff (sampleInputs sampleUpdate) (mounted false))
    = Some d
    /\ diffFiles (effect returningDiff (sampleInputs sampleUpdate) (mounted false))
       = [file].
Proof.
  apply (the_effect_opens_only_on_a_file returningDiff
           (sampleInputs sampleUpdate) (mounted false)).
  - reflexivity.
  - reflexivity.
Defined.

(** ** From the descriptor to the rows, with the modelled line diff *)

Lemma diffLines_to_empty (B : string) :
  JsDiff.diffLines B "" = uniform JsDiff.Removed (JsDiff.tokenize B).
Proof.
  unfold JsDiff.diffLines.
  destruct (JsDiff.tokenize B) as [|token tokens]; [reflexivity|].
  apply (segments_uniform JsDiff.Removed (token :: tokens)).
Qed.

Lemma uniform_mirror (tokens : list string) :
  uniform JsDiff.Removed tokens = map mirrorChange (uniform JsDiff.Added tokens).
Proof. destruct tokens; reflexivity. Qed.

Lemma uniform_oneSided (tag : JsDiff.Tag) (tokens : list string) :
  Forall (fun change => oneSided change = true) (uniform tag tokens).
Proof. destruct tokens, tag; repeat constructor. Qed.

Lemma uniform_result (tag : JsDiff.Tag) (text : string) (k : ChangeType) :
  Forall (fun c => HunkChange.type c = roleOfTag tag)
         (allChanges (buildHunks (uniform tag (JsDiff.tokenize text))))
  /\ countType k (allChanges (buildHunks (uniform tag (JsDiff.tokenize text))))
     = if ChangeType_eqb (roleOfTag tag) k
       then List.length (allChanges (buildHunks (uniform tag (JsDiff.tokenize text))))
       else 0.
Proof.
  pose proof (emission_uniform_role tag text) as Hrole.
  split; [apply types_emission; exact Hrole|].
  rewrite countType_emission.
  rewrite allChanges_buildHunks, <- (length_map rowOf), rows_walk.
  destruct (ChangeType_eqb (roleOfTag tag) k) eqn:E.
  - rewrite filter_all_in; [reflexivity|].
    revert Hrole. apply Forall_impl. intros [k' line] Hk. simpl in Hk. subst k'.
    exact E.
  - rewrite (filter_role_other _ (roleOfTag tag)); [reflexivity | | exact Hrole].
    intros [k' line] Hk. simpl in Hk. subst k'. exact E.
Qed.

(** X21: with the modelled line diff, a text against the empty text is the
    mirror image of the empty text against that text: the same rows, deleted
    instead of inserted and numbered on the old side, no addition, and as
    many deletions as there were additions. *)
Theorem removing_everything_mirrors_adding_everything (B : string) :
  buildDiff B "" = mirrorResult (buildDiff "" B)
  /\ DiffResult.additions (buildDiff B "") = 0
  /\ DiffResult.deletions (buildDiff B "") = DiffResult.additions (buildDiff "" B)
  /\ Forall (fun c => HunkChange.type c = delete) (allChanges (buildDiff B "")).
Proof.
  assert (E : buildDiff B "" = mirrorResult (buildDiff "" B)).
  { unfold buildDiff. rewrite diffLines_to_empty, diffLines_from_empty, uniform_mirror.
    apply buildHunks_mirror, uniform_oneSided. }
  split; [exact E|]. split; [|split].
  - unfold buildDiff. rewrite diffLines_to_empty.
    destruct (buildHunks_counted (uniform JsDiff.Removed (JsDiff.tokenize B)))
      as (Ha & _).
    rewrite Ha. apply (uniform_result JsDiff.Removed B insert).
  - rewrite E. reflexivity.
  - unfold buildDiff. rewrite diffLines_to_empty.
    apply (uniform_result JsDiff.Removed B delete).
Qed.

Lemma resolve_create_texts (history : list ArtifactContent.t) (d : ArtifactDiffInfo)
      (r : Resolved) :
  changeType d = create -> resolve history d = Some r -> oldText r = EmptyString.
Proof.
  unfold resolve. intros ->.
  destruct (find (indexIs (Some (artifactIndex d))) history); [|discriminate].
  now intros [= <-].
Qed.

(** X22: for a create descriptor whose version is found, the panel (with
    the modelled line diff) opens on one file whose rows are all inserted,
    whatever [previousIndex] says: no deletion is counted and the additions
    are all the rows. *)
Theorem a_creation_shows_only_insertions (inp : Inputs) (st : PanelState)
        (d : ArtifactDiffInfo) (art : Artifact) (r : Resolved) :
  selected inp = Some (d, art) ->
  changeType d = create ->
  resolve (contents art) d = Some r ->
  open (panelEffect inp st) = true
  /\ Stats.deletions (stats (panelEffect inp st)) = 0
  /\ exists file,
      diffFiles (panelEffect inp st) = [file]
      /\ Forall (fun c => HunkChange.type c = insert) (fileRows file)
      /\ Stats.additions (stats (panelEffect inp st)) = List.length (fileRows file).
Proof.
  intros Hsel Hc Hres. unfold panelEffect.
  rewrite (effect_selected _ inp st d art Hsel).
  unfold showDiff, tryDiff. rewrite Hres. cbv beta iota zeta.
  rewrite (resolve_create_texts _ _ _ Hc Hres), diffLines_from_empty.
  unfold setOpen, setStats, setDiffFiles.
  cbn [open stats diffFiles Stats.deletions Stats.additions].
  destruct (uniform_result JsDiff.Added (newText r) insert) as (Hall & Hins).
  destruct (uniform_result JsDiff.Added (newText r) delete) as (_ & Hdel).
  destruct (buildHunks_counted (uniform JsDiff.Added (JsDiff.tokenize (newText r))))
    as (Ha & Hd).
  split; [reflexivity|]. split; [now rewrite Hd, Hdel|].
  eexists. split; [reflexivity|]. split; [exact Hall|].
  rewrite Ha. exact Hins.
Qed.

Lemma a_creation_shows_only_insertions_witness :
  open (panelEffect (sampleInputs sampleCreate) sampleState) = true
  /\ Stats.deletions (stats (panelEffect (sampleInputs sampleCreate) sampleState)) = 0
  /\ exists file,
      diffFiles (panelEffect (sampleInputs sampleCreate) sampleState) = [file]
      /\ Forall (fun c => HunkChange.type c = insert) (fileRows file)
      /\ Stats.additions (stats (panelEffect (sampleInputs sampleCreate) sampleState))
         = List.length (fileRows file).
Proof.
  apply (a_creation_shows_only_insertions (sampleInputs sampleCreate) sampleState
           sampleCreate (mkArtifact sampleHistory) (mkResolved "" "beta" "Notes")).
  - reflexivity.
  - reflexivity.
  - reflexivity.
Defined.

(** X23: for an update whose [previousIndex] is its own [artifactIndex], the
    panel (with the modelled line diff) opens on one file whose rows are all
    unchanged, with no addition and no deletion. *)
Theorem a_version_against_itself_shows_no_change (inp : Inputs) (st : PanelState)
        (d : ArtifactDiffInfo) (art : Artifact) (r : Resolved) :
  selected inp = Some (d, art) ->
  changeType d = update ->
  previousIndex d = Some (artifactIndex d) ->
  resolve (contents art) d = Some r ->
  stats (panelEffect inp st) = Stats.mk 0 0
  /\ exists file,
      diffFiles (panelEffect inp st) = [file]
      /\ Forall (fun c => HunkChange.type c = normal) (fileRows file).
Proof.
  intros Hsel Hu Hp Hres. unfold panelEffect.
  rewrite (effect_selected _ inp st d art Hsel).
  unfold showDiff, tryDiff. rewrite Hres. cbv beta iota zeta.
  rewrite (resolve_self_texts _ _ _ Hu Hp Hres), diffLines_same.
  unfold setOpen, setStats, setDiffFiles.
  cbn [open stats diffFiles Stats.deletions Stats.additions].
  destruct (uniform_result JsDiff.Common (newText r) insert) as (Hall & Hins).
  destruct (uniform_result JsDiff.Common (newText r) delete) as (_ & Hdel).
  destruct (buildHunks_counted (uniform JsDiff.Common (JsDiff.tokenize (newText r))))
    as (Ha & Hd).
  split; [now rewrite Ha, Hd, Hins, Hdel|].
  eexists. split; [reflexivity | exact Hall].
Qed.

Lemma a_version_against_itself_shows_no_change_witness :
  stats (panelEffect (sampleInputs sampleSelf) sampleState) = Stats.mk 0 0
  /\ exists file,
      diffFiles (panelEffect (sampleInputs sampleSelf) sampleState) = [file]
      /\ Forall (fun c => HunkChange.type c = normal) (fileRows file).
Proof.
  apply (a_version_against_itself_shows_no_change (sampleInputs sampleSelf)
           sampleState sampleSelf (mkArtifact sampleHistory)
           (mkResolved "beta" "beta" "Notes")).
  - reflexivity.
  - reflexivity.
  - reflexivity.
  - reflexivity.
Defined.
